(** * Offline-first task synchronisation: the sync engine and the task routes

    A shallow embedding of [src/services/syncService.ts],
    [src/services/taskService.ts] and [src/routes/tasks.ts].

    Conventions of the model.
    - SQLite tables are lists of rows in insertion order; a statement with a
      [WHERE id = ?] clause acts on every row whose column matches, so no
      uniqueness of keys is assumed.  Storage I/O failures are not modelled:
      [db.run], [db.get] and [db.all] always succeed.
    - A JavaScript [Date] (and its ISO-8601 column) is the number of
      milliseconds since the epoch, a [Z].  The store compares the column as
      [toISOString()] text; for instants in the years 0000 to 9999 that text
      order is the order of the instants, which is the order modelled here.
      Instants outside those years are outside what the ordering models.
    - The batch size is an integer: a [SYNC_BATCH_SIZE] that [Number] parses
      to a value with a fraction is outside the model.
    - [async] functions run to completion one after the other, so they are
      computations in a state monad; a JavaScript exception is the [Throw]
      completion and carries the message of the [Error]. *)

From Stdlib Require Import ZArith List Ascii String Bool Lia.
From Stdlib Require Import Permutation Sorted.
Import ListNotations.

Local Open Scope string_scope.
Local Open Scope Z_scope.
Local Open Scope list_scope.

Set Implicit Arguments.

(** ** Data model (the shapes used from [src/types]) *)

Inductive Operation : Type := op_create | op_update | op_delete.

Inductive SyncStatus : Type := st_pending | st_synced | st_error.

Inductive OutcomeStatus : Type :=
  outcome_success | outcome_conflict | outcome_error.

Module Task.
Record t : Type := mk {
  id : string;
  title : string;
  description : option string;
  completed : bool;
  created_at : Z;
  updated_at : Z;
  is_deleted : bool;
  sync_status : SyncStatus;
  server_id : option string;
  last_synced_at : option Z
}.
End Task.

(** The [data] column of a queue row: the JSON of a task, or of [{ id }]. *)
Inductive Payload : Type :=
| snapshot (t : Task.t)
| id_only (i : string).

Module SyncQueueItem.
Record t : Type := mk {
  id : string;
  task_id : string;
  operation : Operation;
  data : Payload;
  created_at : Z;
  retry_count : Z;
  error_message : option string
}.
End SyncQueueItem.

Module ProcessedItem.
Record t : Type := mk {
  client_id : string;
  server_id : option string;
  status : OutcomeStatus;
  resolved_data : option Task.t;
  error : option string
}.
End ProcessedItem.

Module SyncError.
Record t : Type := mk {
  task_id : string;
  operation : Operation;
  error : string;
  timestamp : Z
}.
End SyncError.

Module SyncResult.
Record t : Type := mk {
  success : bool;
  synced_items : Z;
  failed_items : Z;
  errors : list SyncError.t
}.
End SyncResult.

(** The two tables of the local store. *)
Record Database : Type := mkDatabase {
  tasks : list Task.t;
  sync_queue : list SyncQueueItem.t
}.

(** What [axios.post] does with a batch: it resolves with a body (whose
    [processed_items] may be missing when the body is malformed), rejects
    with an axios error, or rejects with some other error. *)
Inductive AxiosResult : Type :=
| axios_ok (processed_items : option (list ProcessedItem.t))
| axios_error (message : string)
| other_error (message : string).

(** The context an engine instance runs in: the clock, the identifier and
    string primitives of the platform, the remote authority and the
    environment variable [SYNC_BATCH_SIZE] ([None] when it is unset or not a
    number, [Some n] when [Number] parses it to the integer [n]). *)
Record Env : Type := mkEnv {
  now : Z;
  uuid_of : nat -> string;
  trim : string -> string;
  health : bool;
  post_batch : nat -> list SyncQueueItem.t -> AxiosResult;
  env_SYNC_BATCH_SIZE : option Z
}.

(** ** JavaScript helpers *)

(** [s || null] on an optional string: the empty string is falsy. *)
Definition or_null (o : option string) : option string :=
  match o with
  | Some s => if String.eqb s "" then None else Some s
  | None => None
  end.

(** [s || fallback]. *)
Definition or_default (o : option string) (fallback : string) : string :=
  match or_null o with
  | Some s => s
  | None => fallback
  end.

(** [Array.prototype.slice] with integer bounds. *)
Definition slice {T : Type} (items : list T) (i j : Z) : list T :=
  let len := Z.of_nat (List.length items) in
  let rel := fun k => if k <? 0 then Z.max (len + k) 0 else Z.min k len in
  firstn (Z.to_nat (rel j - rel i)) (skipn (Z.to_nat (rel i)) items).

(** ** Completions and the state monad of the services *)

Inductive Completion (A : Type) : Type :=
| Normal (a : A)
| Throw (e : string)
| Diverge.

Arguments Normal {A} a.
Arguments Throw {A} e.
Arguments Diverge {A}.

Definition M (S A : Type) : Type := S -> Completion A * S.

Definition ret {S A : Type} (a : A) : M S A := fun s => (Normal a, s).

Definition bind {S A B : Type} (c : M S A) (k : A -> M S B) : M S B :=
  fun s =>
    match c s with
    | (Normal a, s') => k a s'
    | (Throw e, s') => (Throw e, s')
    | (Diverge, s') => (Diverge, s')
    end.

Definition throw {S A : Type} (e : string) : M S A := fun s => (Throw e, s).

Definition diverge {S A : Type} : M S A := fun s => (Diverge, s).

(** [try { c } catch (e) { handler e }]: the state reached when [c] throws
    is kept. *)
Definition try_catch {S A : Type} (c : M S A) (handler : string -> M S A)
  : M S A :=
  fun s =>
    match c s with
    | (Throw e, s') => handler e s'
    | r => r
    end.

Definition gets {S A : Type} (f : S -> A) : M S A := fun s => (Normal (f s), s).

Definition modify {S : Type} (f : S -> S) : M S unit :=
  fun s => (Normal tt, f s).

Declare Scope monad_scope.
Delimit Scope monad_scope with monad.

Notation "x <- c ;; k" := (bind c (fun x => k))
  (at level 61, c at next level, right associativity) : monad_scope.
Notation "c ;; k" := (bind c (fun _ => k))
  (at level 61, right associativity) : monad_scope.

Local Open Scope monad_scope.

(** [for (const x of l) { body x }]. *)
Fixpoint for_each {S A : Type} (l : list A) (body : A -> M S unit) : M S unit :=
  match l with
  | [] => ret tt
  | x :: l' => body x ;; for_each l' body
  end.

(** ** SQL statements on the two tables *)

(** [UPDATE tasks SET ... WHERE id = ?]. *)
Definition update_tasks (set : Task.t -> Task.t) (id : string) (d : Database)
  : Database :=
  mkDatabase
    (map (fun row => if String.eqb (Task.id row) id then set row else row)
         (tasks d))
    (sync_queue d).

(** [INSERT INTO tasks ...]. *)
Definition insert_task (row : Task.t) (d : Database) : Database :=
  mkDatabase (tasks d ++ [row]) (sync_queue d).

(** [SELECT * FROM tasks WHERE id = ? AND is_deleted = 0], through [db.get]. *)
Definition select_task (id : string) (d : Database) : option Task.t :=
  find (fun row => String.eqb (Task.id row) id && negb (Task.is_deleted row))
       (tasks d).

(** [INSERT INTO sync_queue ...]. *)
Definition insert_sync_queue (row : SyncQueueItem.t) (d : Database)
  : Database :=
  mkDatabase (tasks d) (sync_queue d ++ [row]).

(** [DELETE FROM sync_queue WHERE id = ?]. *)
Definition delete_sync_queue (id : string) (d : Database) : Database :=
  mkDatabase
    (tasks d)
    (filter (fun row => negb (String.eqb (SyncQueueItem.id row) id))
            (sync_queue d)).

(** [UPDATE sync_queue SET retry_count = ?, error_message = ? WHERE id = ?]. *)
Definition update_sync_queue (retry : Z) (message : string) (id : string)
  (d : Database) : Database :=
  mkDatabase
    (tasks d)
    (map (fun row =>
            if String.eqb (SyncQueueItem.id row) id
            then SyncQueueItem.mk (SyncQueueItem.id row)
                   (SyncQueueItem.task_id row) (SyncQueueItem.operation row)
                   (SyncQueueItem.data row) (SyncQueueItem.created_at row)
                   retry (Some message)
            else row)
         (sync_queue d)).

(** [ORDER BY created_at ASC], for [created_at] text of instants in the years
    0000 to 9999: rows with equal keys keep their table order. *)
Fixpoint insert_by_created_at (x : SyncQueueItem.t) (l : list SyncQueueItem.t)
  : list SyncQueueItem.t :=
  match l with
  | [] => [x]
  | y :: l' =>
      if SyncQueueItem.created_at x <=? SyncQueueItem.created_at y
      then x :: l
      else y :: insert_by_created_at x l'
  end.

Definition order_by_created_at (l : list SyncQueueItem.t)
  : list SyncQueueItem.t :=
  fold_right insert_by_created_at [] l.

(** ** SyncService *)

Definition MAX_RETRY_COUNT : Z := 3.

(** [Number(process.env.SYNC_BATCH_SIZE) || 10]: [NaN] and [0] are falsy. *)
Definition SYNC_BATCH_SIZE (E : Env) : Z :=
  match env_SYNC_BATCH_SIZE E with
  | Some n => if n =? 0 then 10 else n
  | None => 10
  end.

(** The state a sync cycle works on: the store, the batches posted to the
    remote authority so far, and the [result] object of [sync]. *)
Record SyncState : Type := mkSyncState {
  db : Database;
  requests : list (list SyncQueueItem.t);
  result : SyncResult.t
}.

Definition db_run (f : Database -> Database) : M SyncState unit :=
  modify (fun s => mkSyncState (f (db s)) (requests s) (result s)).

Definition set_result (f : SyncResult.t -> SyncResult.t) : M SyncState unit :=
  modify (fun s => mkSyncState (db s) (requests s) (f (result s))).

Definition initial_result : SyncResult.t := SyncResult.mk true 0 0 [].

Definition incr_synced (r : SyncResult.t) : SyncResult.t :=
  SyncResult.mk (SyncResult.success r) (SyncResult.synced_items r + 1)
    (SyncResult.failed_items r) (SyncResult.errors r).

Definition incr_failed (r : SyncResult.t) : SyncResult.t :=
  SyncResult.mk (SyncResult.success r) (SyncResult.synced_items r)
    (SyncResult.failed_items r + 1) (SyncResult.errors r).

Definition push_error (e : SyncError.t) (r : SyncResult.t) : SyncResult.t :=
  SyncResult.mk (SyncResult.success r) (SyncResult.synced_items r)
    (SyncResult.failed_items r) (SyncResult.errors r ++ [e]).

Definition set_success (b : bool) (r : SyncResult.t) : SyncResult.t :=
  SyncResult.mk b (SyncResult.synced_items r) (SyncResult.failed_items r)
    (SyncResult.errors r).

(** [getSyncQueueItems]: the rows below the retry ceiling, oldest first. *)
Definition getSyncQueueItems (d : Database) : list SyncQueueItem.t :=
  order_by_created_at
    (filter (fun row => SyncQueueItem.retry_count row <? MAX_RETRY_COUNT)
            (sync_queue d)).

(** The loop of [createBatches].  It runs at most [length items] times when it
    terminates at all; [None] is the loop that never ends (a batch size that
    is not positive, on a non-empty array). *)
Fixpoint createBatches_loop {T : Type} (fuel : nat) (items : list T)
  (batchSize i : Z) (batches : list (list T)) : option (list (list T)) :=
  if i <? Z.of_nat (List.length items) then
    match fuel with
    | O => None
    | S fuel' =>
        createBatches_loop fuel' items batchSize (i + batchSize)
          (batches ++ [slice items i (i + batchSize)])
    end
  else Some batches.

Definition createBatches {T : Type} (items : list T) (batchSize : Z)
  : option (list (list T)) :=
  createBatches_loop (List.length items) items batchSize 0 [].

(** [resolveConflict]: last write wins. *)
Definition resolveConflict (localTask serverTask : Task.t) : Task.t :=
  let localTimestamp := Task.updated_at localTask in
  let serverTimestamp := Task.updated_at serverTask in
  if localTimestamp >? serverTimestamp then localTask else serverTask.

(** The [UPDATE tasks] of [updateSyncStatus]: [server_id] is written only
    when the outcome carries a truthy one. *)
Definition set_sync_status (status : SyncStatus) (at_ : Z)
  (server_id : option string) (row : Task.t) : Task.t :=
  Task.mk (Task.id row) (Task.title row) (Task.description row)
    (Task.completed row) (Task.created_at row) (Task.updated_at row)
    (Task.is_deleted row) status
    (match or_null server_id with
     | Some sid => Some sid
     | None => Task.server_id row
     end)
    (Some at_).

Definition is_synced (status : SyncStatus) : bool :=
  match status with st_synced => true | _ => false end.

Definition updateSyncStatus (E : Env) (queueItemId taskId : string)
  (status : SyncStatus) (server_id : option string) (d : Database)
  : Database :=
  let d1 := update_tasks (set_sync_status status (now E) server_id) taskId d in
  if is_synced status then delete_sync_queue queueItemId d1 else d1.

(** The [UPDATE tasks] that persists a resolved conflict. *)
Definition set_resolved (E : Env) (resolvedTask : Task.t)
  (server_id : option string) (row : Task.t) : Task.t :=
  Task.mk (Task.id row) (Task.title resolvedTask)
    (or_null (Task.description resolvedTask)) (Task.completed resolvedTask)
    (Task.created_at row) (Task.updated_at resolvedTask)
    (Task.is_deleted row) st_synced (or_null server_id) (Some (now E)).

Definition set_task_error (row : Task.t) : Task.t :=
  Task.mk (Task.id row) (Task.title row) (Task.description row)
    (Task.completed row) (Task.created_at row) (Task.updated_at row)
    (Task.is_deleted row) st_error (Task.server_id row)
    (Task.last_synced_at row).

(** [handleSyncError]. *)
Definition handleSyncError (item : SyncQueueItem.t) (message : string)
  (d : Database) : Database :=
  let newRetryCount := SyncQueueItem.retry_count item + 1 in
  if newRetryCount >=? MAX_RETRY_COUNT then
    delete_sync_queue (SyncQueueItem.id item)
      (update_tasks set_task_error (SyncQueueItem.task_id item) d)
  else
    update_sync_queue newRetryCount message (SyncQueueItem.id item) d.

(** [checkConnectivity]: the probe swallows its own failure. *)
Definition checkConnectivity (E : Env) : M SyncState bool :=
  try_catch (if health E then ret true else throw "Network Error")
            (fun _ => ret false).

(** [processBatch]: posts the batch; an axios error is rethrown with a
    prefixed message, any other error as it is. *)
Definition processBatch (E : Env) (items : list SyncQueueItem.t)
  : M SyncState (option (list ProcessedItem.t)) :=
  n <- gets (fun s => List.length (requests s)) ;;
  modify (fun s => mkSyncState (db s) (requests s ++ [items]) (result s)) ;;
  match post_batch E n items with
  | axios_ok data => ret data
  | axios_error message => throw ("Batch sync failed: " ++ message)%string
  | other_error message => throw message
  end.

(** [batch.find(item => item.task_id === processedItem.client_id)]. *)
Definition findQueueItem (batch : list SyncQueueItem.t) (p : ProcessedItem.t)
  : option SyncQueueItem.t :=
  find (fun item =>
          String.eqb (SyncQueueItem.task_id item) (ProcessedItem.client_id p))
       batch.

Definition error_record (E : Env) (item : SyncQueueItem.t) (message : string)
  : SyncError.t :=
  SyncError.mk (SyncQueueItem.task_id item) (SyncQueueItem.operation item)
    message (now E).

(** The body of the loop over [batchResponse.processed_items]. *)
Definition processItem (E : Env) (batch : list SyncQueueItem.t)
  (processedItem : ProcessedItem.t) : M SyncState unit :=
  match findQueueItem batch processedItem with
  | None => ret tt
  | Some queueItem =>
      match ProcessedItem.status processedItem,
            ProcessedItem.resolved_data processedItem with
      | outcome_success, _ =>
          db_run (updateSyncStatus E (SyncQueueItem.id queueItem)
                    (SyncQueueItem.task_id queueItem) st_synced
                    (ProcessedItem.server_id processedItem)) ;;
          set_result incr_synced
      | outcome_conflict, Some serverTask =>
          localTask <- gets (fun s =>
                         select_task (SyncQueueItem.task_id queueItem) (db s)) ;;
          match localTask with
          | Some localTask =>
              let resolvedTask := resolveConflict localTask serverTask in
              db_run (update_tasks
                        (set_resolved E resolvedTask
                           (ProcessedItem.server_id processedItem))
                        (Task.id resolvedTask)) ;;
              db_run (delete_sync_queue (SyncQueueItem.id queueItem)) ;;
              set_result incr_synced
          | None => ret tt
          end
      | _, _ =>
          let message :=
            or_default (ProcessedItem.error processedItem) "Unknown error" in
          db_run (handleSyncError queueItem message) ;;
          set_result incr_failed ;;
          set_result (push_error (error_record E queueItem message))
      end
  end.

(** The [catch (batchError)] block: every entry of the batch fails. *)
Definition failBatch (E : Env) (batch : list SyncQueueItem.t)
  (message : string) : M SyncState unit :=
  for_each batch (fun item =>
    db_run (handleSyncError item message) ;;
    set_result incr_failed ;;
    set_result (push_error (error_record E item message))).

(** Reading [processed_items] off a body that has none is a [TypeError]. *)
Definition processed_items_of (data : option (list ProcessedItem.t))
  : M SyncState (list ProcessedItem.t) :=
  match data with
  | Some items => ret items
  | None => throw "Cannot read properties of undefined (reading 'map')"
  end.

(** The body of the loop over [batches]. *)
Definition syncBatch (E : Env) (batch : list SyncQueueItem.t)
  : M SyncState unit :=
  try_catch
    (batchResponse <- processBatch E batch ;;
     processed_items <- processed_items_of batchResponse ;;
     for_each processed_items (processItem E batch))
    (failBatch E batch).

(** [sync]. *)
Definition sync (E : Env) : M SyncState SyncResult.t :=
  set_result (fun _ => initial_result) ;;
  try_catch
    (isOnline <- checkConnectivity E ;;
     if negb isOnline then throw "Server is not reachable" else
     queueItems <- gets (fun s => getSyncQueueItems (db s)) ;;
     if (Z.of_nat (List.length queueItems) =? 0) then gets result else
     match createBatches queueItems (SYNC_BATCH_SIZE E) with
     | None => diverge
     | Some batches =>
         for_each batches (syncBatch E) ;;
         set_result (fun r =>
           set_success (SyncResult.failed_items r =? 0) r) ;;
         gets result
     end)
    (fun _ =>
       set_result (set_success false) ;;
       gets result).

(** ** TaskService *)

(** The state the task service and the routes work on: the store and the
    number of identifiers [uuidv4] has handed out. *)
Record World : Type := mkWorld {
  store : Database;
  uuid_counter : nat
}.

Definition store_run (f : Database -> Database) : M World unit :=
  modify (fun w => mkWorld (f (store w)) (uuid_counter w)).

(** [uuidv4()]: the next identifier of the supply. *)
Definition uuidv4 (E : Env) : M World string :=
  n <- gets uuid_counter ;;
  modify (fun w => mkWorld (store w) (S n)) ;;
  ret (uuid_of E n).

(** The fields of its argument that [createTask] reads. *)
Module TaskData.
Record t : Type := mk {
  title : string;
  description : option string;
  completed : bool;
  server_id : option string;
  last_synced_at : option Z
}.
End TaskData.

(** The fields a [PUT] may set; [Some None] on [description] is the key
    present with the value [undefined]. *)
Module TaskUpdates.
Record t : Type := mk {
  title : option string;
  description : option (option string);
  completed : option bool
}.
End TaskUpdates.

(** The row a task is stored as: [|| null] on the optional text columns. *)
Definition task_row (task : Task.t) : Task.t :=
  Task.mk (Task.id task) (Task.title task) (or_null (Task.description task))
    (Task.completed task) (Task.created_at task) (Task.updated_at task)
    (Task.is_deleted task) (Task.sync_status task)
    (or_null (Task.server_id task)) (Task.last_synced_at task).

Definition createTask (E : Env) (taskData : TaskData.t) : M World Task.t :=
  id <- uuidv4 E ;;
  let task :=
    Task.mk id (TaskData.title taskData) (TaskData.description taskData)
      (TaskData.completed taskData) (now E) (now E) false st_pending
      (TaskData.server_id taskData) (TaskData.last_synced_at taskData) in
  store_run (insert_task (task_row task)) ;;
  queue_id <- uuidv4 E ;;
  store_run (insert_sync_queue
               (SyncQueueItem.mk queue_id (Task.id task) op_create
                  (snapshot task) (Task.created_at task) 0 None)) ;;
  ret task.

Definition getTask (id : string) : M World (option Task.t) :=
  gets (fun w => select_task id (store w)).

(** [{ ...existingTask, ...updates, id, updated_at: new Date(),
       sync_status: 'pending' }]. *)
Definition merge_updates (E : Env) (existingTask : Task.t)
  (updates : TaskUpdates.t) : Task.t :=
  Task.mk (Task.id existingTask)
    (match TaskUpdates.title updates with
     | Some s => s
     | None => Task.title existingTask
     end)
    (match TaskUpdates.description updates with
     | Some d => d
     | None => Task.description existingTask
     end)
    (match TaskUpdates.completed updates with
     | Some b => b
     | None => Task.completed existingTask
     end)
    (Task.created_at existingTask) (now E) (Task.is_deleted existingTask)
    st_pending (Task.server_id existingTask)
    (Task.last_synced_at existingTask).

(** The [UPDATE tasks] of [updateTask]. *)
Definition set_updated (updatedTask : Task.t) (row : Task.t) : Task.t :=
  Task.mk (Task.id row) (Task.title updatedTask)
    (or_null (Task.description updatedTask)) (Task.completed updatedTask)
    (Task.created_at row) (Task.updated_at updatedTask) (Task.is_deleted row)
    (Task.sync_status updatedTask) (or_null (Task.server_id updatedTask))
    (Task.last_synced_at updatedTask).

Definition updateTask (E : Env) (id : string) (updates : TaskUpdates.t)
  : M World (option Task.t) :=
  existingTask <- getTask id ;;
  match existingTask with
  | None => ret None
  | Some existingTask =>
      let updatedTask := merge_updates E existingTask updates in
      store_run (update_tasks (set_updated updatedTask) id) ;;
      queue_id <- uuidv4 E ;;
      store_run (insert_sync_queue
                   (SyncQueueItem.mk queue_id (Task.id updatedTask) op_update
                      (snapshot updatedTask) (Task.updated_at updatedTask)
                      0 None)) ;;
      ret (Some updatedTask)
  end.

(** The [UPDATE tasks] of [deleteTask]. *)
Definition set_deleted (at_ : Z) (row : Task.t) : Task.t :=
  Task.mk (Task.id row) (Task.title row) (Task.description row)
    (Task.completed row) (Task.created_at row) at_ true st_pending
    (Task.server_id row) (Task.last_synced_at row).

Definition deleteTask (E : Env) (id : string) : M World bool :=
  task <- getTask id ;;
  match task with
  | None => ret false
  | Some _ =>
      store_run (update_tasks (set_deleted (now E)) id) ;;
      queue_id <- uuidv4 E ;;
      store_run (insert_sync_queue
                   (SyncQueueItem.mk queue_id id op_delete (id_only id)
                      (now E) 0 None)) ;;
      ret true
  end.

(** [SyncService.addToSyncQueue]. *)
Definition addToSyncQueue (E : Env) (taskId : string) (operation : Operation)
  (data : Task.t) : M World unit :=
  queue_id <- uuidv4 E ;;
  store_run (insert_sync_queue
               (SyncQueueItem.mk queue_id taskId operation (snapshot data)
                  (now E) 0 None)).

(** ** The task routes *)

(** A field of a JSON request body. *)
Inductive JsValue : Type :=
| js_undefined
| js_null
| js_string (s : string)
| js_boolean (b : bool)
| js_other.

Record TaskBody : Type := mkTaskBody {
  body_title : JsValue;
  body_description : JsValue;
  body_completed : JsValue
}.

(** The status code of a response and the task it carries, if any. *)
Record Response : Type := mkResponse {
  status_code : Z;
  body_task : option Task.t
}.

(** [!title || typeof title !== 'string' || title.trim().length === 0]. *)
Definition title_missing (E : Env) (title : JsValue) : bool :=
  match title with
  | js_string s => String.eqb s "" || (String.length (trim E s) =? 0)%nat
  | _ => true
  end.

(** [title !== undefined &&
     (typeof title !== 'string' || title.trim().length === 0)]. *)
Definition title_invalid (E : Env) (title : JsValue) : bool :=
  match title with
  | js_undefined => false
  | js_string s => (String.length (trim E s) =? 0)%nat
  | _ => true
  end.

(** [completed !== undefined && typeof completed !== 'boolean']. *)
Definition completed_invalid (completed : JsValue) : bool :=
  match completed with
  | js_undefined | js_boolean _ => false
  | _ => true
  end.

(** [description?.trim()]: a [TypeError] on a value that has no [trim]. *)
Definition optional_trim (E : Env) (v : JsValue) : M World (option string) :=
  match v with
  | js_undefined | js_null => ret None
  | js_string s => ret (Some (trim E s))
  | _ => throw "description?.trim is not a function"
  end.

(** [router.post('/')]. *)
Definition post_task (E : Env) (body : TaskBody) : M World Response :=
  try_catch
    (if title_missing E (body_title body) then ret (mkResponse 400 None) else
     description <- optional_trim E (body_description body) ;;
     task <- createTask E
               (TaskData.mk
                  (match body_title body with
                   | js_string s => trim E s
                   | _ => ""
                   end)
                  description false None None) ;;
     addToSyncQueue E (Task.id task) op_create task ;;
     ret (mkResponse 201 (Some task)))
    (fun _ => ret (mkResponse 500 None)).

(** The [updates] object the [PUT] handler builds. *)
Definition build_updates (E : Env) (body : TaskBody) : M World TaskUpdates.t :=
  description <-
    match body_description body with
    | js_undefined => ret None
    | v => d <- optional_trim E v ;; ret (Some d)
    end ;;
  ret (TaskUpdates.mk
         (match body_title body with
          | js_string s => Some (trim E s)
          | _ => None
          end)
         description
         (match body_completed body with
          | js_boolean b => Some b
          | _ => None
          end)).

(** [router.put('/:id')]. *)
Definition put_task (E : Env) (id : string) (body : TaskBody)
  : M World Response :=
  try_catch
    (if title_invalid E (body_title body) then ret (mkResponse 400 None) else
     if completed_invalid (body_completed body)
     then ret (mkResponse 400 None) else
     updates <- build_updates E body ;;
     updatedTask <- updateTask E id updates ;;
     match updatedTask with
     | None => ret (mkResponse 404 None)
     | Some updatedTask =>
         addToSyncQueue E (Task.id updatedTask) op_update updatedTask ;;
         ret (mkResponse 200 (Some updatedTask))
     end)
    (fun _ => ret (mkResponse 500 None)).

(** [router.delete('/:id')]. *)
Definition delete_task (E : Env) (id : string) : M World Response :=
  try_catch
    (task <- getTask id ;;
     match task with
     | None => ret (mkResponse 404 None)
     | Some task =>
         deleted <- deleteTask E id ;;
         if negb deleted then ret (mkResponse 404 None) else
         addToSyncQueue E id op_delete task ;;
         ret (mkResponse 204 None)
     end)
    (fun _ => ret (mkResponse 500 None)).

(** ** TaskService: the listing queries *)

(** [ORDER BY <column> DESC] on task rows: rows with equal keys keep their
    table order. *)
Fixpoint insert_desc (key : Task.t -> Z) (x : Task.t) (l : list Task.t)
  : list Task.t :=
  match l with
  | [] => [x]
  | y :: l' =>
      if key y <=? key x then x :: l else y :: insert_desc key x l'
  end.

Definition order_by_desc (key : Task.t -> Z) (l : list Task.t) : list Task.t :=
  fold_right (insert_desc key) [] l.


(** [getAllTasks]: the rows that are not soft-deleted, newest first. *)
Definition getAllTasks (d : Database) : list Task.t :=
  order_by_desc Task.created_at
    (filter (fun row => negb (Task.is_deleted row)) (tasks d)).


(** ** The read routes of the task router *)

(** [router.get('/')]: the status code and the tasks of the body. *)
Definition get_tasks : M World (Z * list Task.t) :=
  try_catch
    (all <- gets (fun w => getAllTasks (store w)) ;;
     ret (200, all))
    (fun _ => ret (500, [])).

(** [router.get('/:id')]. *)
Definition get_task (id : string) : M World Response :=
  try_catch
    (task <- getTask id ;;
     match task with
     | None => ret (mkResponse 404 None)
     | Some task => ret (mkResponse 200 (Some task))
     end)
    (fun _ => ret (mkResponse 500 None)).

(** ** The status route of the sync router *)

Record StatusReport : Type := mkStatusReport {
  pending_sync_count : Z;
  last_sync_timestamp : option Z;
  is_online : bool;
  sync_queue_size : Z
}.

(** [SELECT COUNT( * ) FROM sync_queue WHERE retry_count < 3]. *)
Definition count_pending (d : Database) : Z :=
  Z.of_nat (List.length
              (filter (fun row => SyncQueueItem.retry_count row <? 3)
                      (sync_queue d))).

(** [SELECT MAX(last_synced_at) FROM tasks WHERE last_synced_at IS NOT NULL];
    [None] is the [NULL] of an empty aggregate. *)
Definition max_last_synced_at (d : Database) : option Z :=
  fold_left
    (fun acc row =>
       match Task.last_synced_at row, acc with
       | Some t, Some m => Some (Z.max m t)
       | Some t, None => Some t
       | None, _ => acc
       end)
    (tasks d) None.

(** [router.get('/status')]. *)
Definition get_status (E : Env) (d : Database) : StatusReport :=
  mkStatusReport (count_pending d) (max_last_synced_at d) (health E)
    (Z.of_nat (List.length (sync_queue d))).

(** ** Definitions used to state the properties *)

(** The correlation the specification words: the entry of the batch whose own
    [id] is the outcome's [client_id]. *)
Definition findByEntryId (batch : list SyncQueueItem.t) (p : ProcessedItem.t)
  : option SyncQueueItem.t :=
  find (fun item =>
          String.eqb (SyncQueueItem.id item) (ProcessedItem.client_id p))
       batch.

(** The state a batch-level failure leads to. *)
Definition failed_state (E : Env) (batch : list SyncQueueItem.t)
  (message : string) (s : SyncState) : SyncState :=
  mkSyncState
    (fold_left (fun d item => handleSyncError item message d) batch (db s))
    (requests s)
    (SyncResult.mk
       (SyncResult.success (result s))
       (SyncResult.synced_items (result s))
       (SyncResult.failed_items (result s) + Z.of_nat (List.length batch))
       (SyncResult.errors (result s)
        ++ map (fun item => error_record E item message) batch)).

(** The first and the last millisecond that [toISOString()] writes with a
    four-digit year: 0000-01-01T00:00:00.000Z and 9999-12-31T23:59:59.999Z.
    Between them the text order of the column is the order of the
    instants. *)
Definition ISO_MIN : Z := -62167219200000.
Definition ISO_MAX : Z := 253402300799999.


(** ** Sample data *)

Module Samples.

(** An identifier supply that never repeats: [n] zeros, then a [u]. *)
Fixpoint uuid_unary (n : nat) : string :=
  match n with
  | O => "u"
  | S k => String "0"%char (uuid_unary k)
  end.

Definition reply_nothing (n : nat) (batch : list SyncQueueItem.t)
  : AxiosResult :=
  axios_ok (Some []).

(** The remote authority cannot be reached at all. *)
Definition reply_down (n : nat) (batch : list SyncQueueItem.t)
  : AxiosResult :=
  axios_error "timeout of 30000ms exceeded".

(** The reply of the repository's own [/batch] route to updates of tasks it
    does not hold: one error outcome per entry, keyed by the entry's id. *)
Definition reply_by_entry_id (n : nat) (batch : list SyncQueueItem.t)
  : AxiosResult :=
  axios_ok (Some (map (fun item =>
    ProcessedItem.mk (SyncQueueItem.id item)
      (Some (SyncQueueItem.task_id item)) outcome_error None
      (Some "Task not found")) batch)).

(** A remote authority that accepts every entry and keys its outcomes by the
    task identifier, the key [sync] looks entries up by. *)
Definition reply_accept (n : nat) (batch : list SyncQueueItem.t)
  : AxiosResult :=
  axios_ok (Some (map (fun item =>
    ProcessedItem.mk (SyncQueueItem.task_id item) (Some "srv-1")
      outcome_success None None) batch)).

Definition env_with (up : bool)
  (reply : nat -> list SyncQueueItem.t -> AxiosResult) : Env :=
  mkEnv 1000 uuid_unary (fun s => s) up reply None.

Definition online : Env := env_with true reply_nothing.
Definition offline : Env := env_with false reply_nothing.
Definition failing : Env := env_with true reply_down.

Definition task1 : Task.t :=
  Task.mk "t-1" "write report" None false 10 20 false st_pending None None.

Definition remote1 : Task.t :=
  Task.mk "t-1" "write the report" None true 10 30 false st_synced
    (Some "srv-1") None.

Definition entry (id task_id : string) (retry : Z) : SyncQueueItem.t :=
  SyncQueueItem.mk id task_id op_update (snapshot task1) 20 retry None.

Definition q1 : SyncQueueItem.t := entry "q-1" "t-1" 0.
Definition q2 : SyncQueueItem.t := entry "q-2" "t-1" 2.

Definition db1 : Database := mkDatabase [task1] [q1; q2].

Definition state_of (d : Database) : SyncState :=
  mkSyncState d [] initial_result.

(** The store a cycle leaves behind. *)
Definition cycle (E : Env) (d : Database) : Database :=
  db (snd (sync E (state_of d))).

(** A store whose queue holds [q1] while task [t-1] is not there. *)
Definition db_no_task : Database := mkDatabase [] [q1].

Definition success_keyed (key : string) : ProcessedItem.t :=
  ProcessedItem.mk key (Some "srv-1") outcome_success None None.

Definition conflict_keyed (key : string) (resolved : option Task.t)
  : ProcessedItem.t :=
  ProcessedItem.mk key None outcome_conflict resolved None.

(** Eleven pending entries, one per task. *)
Definition eleven : list SyncQueueItem.t :=
  map (fun n => entry (uuid_unary n) (uuid_unary (100 + n)) 0) (seq 0 11).

End Samples.

(** * Properties *)

(** ** The monad *)

Lemma for_each_normal (S A : Type) (body : A -> M S unit) (l : list A) :
  (forall x s, exists s', body x s = (Normal tt, s')) ->
  forall s, exists s', for_each l body s = (Normal tt, s').
Proof.
  intros Hbody. induction l as [|x l IH]; intros s; simpl.
  - exists s. reflexivity.
  - unfold bind. destruct (Hbody x s) as [s1 ->]. apply IH.
Qed.

(** ** Batching *)

Lemma firstn_skipn_firstn (T : Type) (l : list T) (a b : nat) :
  firstn a l ++ firstn b (skipn a l) = firstn (a + b) l.
Proof.
  revert l. induction a as [|a IH]; intros l; simpl.
  - reflexivity.
  - destruct l as [|x l]; simpl.
    + now rewrite firstn_nil.
    + now rewrite IH.
Qed.

Lemma slice_in_range (T : Type) (items : list T) (i n : Z) :
  0 <= i < Z.of_nat (List.length items) -> 0 < n ->
  slice items i (i + n) =
  firstn (Z.to_nat (Z.min (i + n) (Z.of_nat (List.length items)) - i))
         (skipn (Z.to_nat i) items).
Proof.
  intros Hi Hn. unfold slice.
  destruct (Z.ltb_spec i 0); [lia|].
  destruct (Z.ltb_spec (i + n) 0); [lia|].
  now rewrite (Z.min_l i) by lia.
Qed.

Lemma createBatches_loop_spec (T : Type) (items : list T) (n : Z) :
  0 < n ->
  forall fuel i batches,
    0 <= i ->
    Z.of_nat (List.length items) - i <= Z.of_nat fuel ->
    List.concat batches = firstn (Z.to_nat i) items ->
    Forall (fun b => Z.of_nat (List.length b) <= n) batches ->
    exists bs,
      createBatches_loop fuel items n i batches = Some bs /\
      List.concat bs = items /\
      Forall (fun b => Z.of_nat (List.length b) <= n) bs.
Proof.
  intros Hn. induction fuel as [|fuel IH]; intros i batches Hi Hfuel Hcat Hall;
    simpl; destruct (Z.ltb_spec i (Z.of_nat (List.length items))) as [Hlt|Hge].
  - lia.
  - exists batches. repeat split; trivial.
    rewrite Hcat. apply firstn_all2. lia.
  - apply IH.
    + lia.
    + lia.
    + rewrite concat_app, Hcat. simpl. rewrite app_nil_r.
      rewrite slice_in_range by lia. rewrite firstn_skipn_firstn.
      destruct (Z.le_gt_cases (i + n) (Z.of_nat (List.length items))).
      * rewrite Z.min_l by lia. f_equal. lia.
      * rewrite Z.min_r by lia.
        rewrite !firstn_all2; trivial; lia.
    + apply Forall_app. split; trivial. constructor; [|constructor].
      rewrite slice_in_range by lia. rewrite length_firstn. lia.
  - exists batches. repeat split; trivial.
    rewrite Hcat. apply firstn_all2. lia.
Qed.

(** With a positive batch size [createBatches] returns; its batches, put end
    to end, are the items in their order, and none is longer than the size. *)
Lemma createBatches_partition (T : Type) (items : list T) (n : Z) :
  0 < n ->
  exists bs,
    createBatches items n = Some bs /\
    List.concat bs = items /\
    Forall (fun b => Z.of_nat (List.length b) <= n) bs.
Proof.
  intros Hn. unfold createBatches.
  apply createBatches_loop_spec; trivial; try lia; constructor.
Qed.

(** ** The loop bodies of a sync cycle *)

Ltac run_monad :=
  unfold bind, ret, throw, gets, modify, db_run, set_result, try_catch;
  simpl.

Lemma processItem_normal (E : Env) batch p s :
  exists s', processItem E batch p s = (Normal tt, s').
Proof.
  unfold processItem.
  destruct (findQueueItem batch p) as [q|]; [|eexists; reflexivity].
  destruct (ProcessedItem.status p), (ProcessedItem.resolved_data p);
    run_monad; try (eexists; reflexivity).
  destruct (select_task (SyncQueueItem.task_id q) (db s));
    eexists; reflexivity.
Qed.

Lemma failBatch_spec (E : Env) message batch s :
  failBatch E batch message s = (Normal tt, failed_state E batch message s).
Proof.
  unfold failBatch, failed_state. revert s.
  induction batch as [|item batch IH]; intros s.
  - simpl. unfold ret. destruct s as [d rq [ok n m errs]]; simpl.
    now rewrite Z.add_0_r, app_nil_r.
  - cbn [for_each]. unfold bind at 1. run_monad. rewrite IH. simpl.
    do 3 f_equal.
    + lia.
    + now rewrite <- app_assoc.
Qed.

Lemma syncBatch_normal (E : Env) batch s :
  exists s', syncBatch E batch s = (Normal tt, s').
Proof.
  unfold syncBatch, processBatch, processed_items_of. run_monad.
  destruct (post_batch E (List.length (requests s)) batch) as [[items|]|m|m];
    simpl; try (rewrite failBatch_spec; eexists; reflexivity).
  match goal with
  | |- context [for_each items ?b ?s0] =>
      destruct (for_each_normal b items (processItem_normal E batch) s0)
        as [s1 ->]
  end.
  eexists; reflexivity.
Qed.



(** ** The cycle as a whole *)


Lemma sync_offline (E : Env) s :
  health E = false ->
  sync E s =
  (Normal (SyncResult.mk false 0 0 []),
   mkSyncState (db s) (requests s) (SyncResult.mk false 0 0 [])).
Proof.
  intros H. unfold sync, checkConnectivity. rewrite H. reflexivity.
Qed.

(** What an online cycle computes, loop by loop. *)
Lemma sync_online (E : Env) s :
  health E = true ->
  sync E s =
  let s0 := mkSyncState (db s) (requests s) initial_result in
  let queueItems := getSyncQueueItems (db s) in
  if Z.of_nat (List.length queueItems) =? 0 then (Normal initial_result, s0)
  else
    match createBatches queueItems (SYNC_BATCH_SIZE E) with
    | None => (Diverge, s0)
    | Some batches =>
        match for_each batches (syncBatch E) s0 with
        | (Normal _, s1) =>
            let r := set_success (SyncResult.failed_items (result s1) =? 0)
                       (result s1) in
            (Normal r, mkSyncState (db s1) (requests s1) r)
        | (Throw _, s1) =>
            let r := set_success false (result s1) in
            (Normal r, mkSyncState (db s1) (requests s1) r)
        | (Diverge, s1) => (Diverge, s1)
        end
    end.
Proof.
  intros H. unfold sync, checkConnectivity. rewrite H. run_monad.
  destruct (Z.of_nat (List.length (getSyncQueueItems (db s))) =? 0);
    [reflexivity|].
  destruct (createBatches (getSyncQueueItems (db s)) (SYNC_BATCH_SIZE E));
    [|reflexivity].
  match goal with
  | |- context [for_each l ?b ?s0] => destruct (for_each l b s0) as [[[]| |] s1]
  end; reflexivity.
Qed.

Lemma sync_returns (E : Env) s :
  0 < SYNC_BATCH_SIZE E -> exists r s', sync E s = (Normal r, s').
Proof.
  intros Hn. destruct (health E) eqn:Hh.
  - rewrite sync_online by trivial. cbv zeta.
    destruct (_ =? 0); [eauto|].
    destruct (createBatches_partition (getSyncQueueItems (db s)) Hn)
      as (bs & -> & _).
    match goal with
    | |- context [for_each bs ?b ?s0] =>
        destruct (for_each_normal b bs (syncBatch_normal E) s0) as [s1 ->]
    end.
    eauto.
  - rewrite sync_offline by trivial. eauto.
Qed.

(** ** Two scenarios, run on the model *)

(** One pending entry, accepted by the authority under the remote identifier
    [srv-1]: the task is synced and carries the identifier, the log is
    empty. *)
Example scenario_accepted :
  sync (Samples.env_with true Samples.reply_accept)
    (Samples.state_of (mkDatabase [Samples.task1] [Samples.q1]))
  = (Normal (SyncResult.mk true 1 0 []),
     mkSyncState
       (mkDatabase
          [Task.mk "t-1" "write report" None false 10 20 false st_synced
             (Some "srv-1") (Some 1000)]
          [])
       [[Samples.q1]]
       (SyncResult.mk true 1 0 [])).
Proof. reflexivity. Qed.

(** A transport error on three cycles in a row: the retry count goes 1, 2,
    and on the third failure the entry is dropped and its task marked
    [error]. *)
Example scenario_three_failures :
  let d0 := mkDatabase [Samples.task1] [Samples.q1] in
  let d1 := Samples.cycle Samples.failing d0 in
  let d2 := Samples.cycle Samples.failing d1 in
  let d3 := Samples.cycle Samples.failing d2 in
  map SyncQueueItem.retry_count (sync_queue d1) = [1] /\
  map SyncQueueItem.retry_count (sync_queue d2) = [2] /\
  sync_queue d3 = [] /\
  map Task.sync_status (tasks d3) = [st_error].
Proof. repeat split. Qed.

(** ** Correlation of outcomes with queue entries *)

(** The defect on a concrete batch holding the entries [q-1] and [q-2] of
    task [t-1]: a success outcome keyed by the entry identifier [q-2] finds no
    entry and changes nothing, and an outcome keyed by the entity identifier
    [t-1] is matched to entry [q-1], whose own id is not the key.  A whole
    cycle whose reply is keyed by entry identifiers, as the [/batch] route of
    this repository keys it, posts the batch and then applies no outcome. *)
Lemma correlation_by_entry_id_counterexample :
  findByEntryId [Samples.q1; Samples.q2] (Samples.success_keyed "q-2")
  = Some Samples.q2 /\
  findQueueItem [Samples.q1; Samples.q2] (Samples.success_keyed "q-2")
  = None /\
  processItem Samples.online [Samples.q1; Samples.q2]
    (Samples.success_keyed "q-2") (Samples.state_of Samples.db1)
  = (Normal tt, Samples.state_of Samples.db1) /\
  findByEntryId [Samples.q1; Samples.q2] (Samples.success_keyed "t-1")
  = None /\
  findQueueItem [Samples.q1; Samples.q2] (Samples.success_keyed "t-1")
  = Some Samples.q1 /\
  sync (Samples.env_with true Samples.reply_by_entry_id)
    (Samples.state_of Samples.db1)
  = (Normal initial_result,
     mkSyncState Samples.db1 [[Samples.q1; Samples.q2]] initial_result).
Proof. repeat split. Qed.

(** An outcome whose key is the [task_id] of no entry of the batch is
    ignored: the store, the result and the requests stay as they are. *)
Lemma unmatched_outcome_is_ignored (E : Env) batch p s :
  (forall q, In q batch ->
     SyncQueueItem.task_id q <> ProcessedItem.client_id p) ->
  processItem E batch p s = (Normal tt, s).
Proof.
  intros Hnone. unfold processItem.
  destruct (findQueueItem batch p) as [q|] eqn:Hfind; [|reflexivity].
  unfold findQueueItem in Hfind. apply find_some in Hfind.
  destruct Hfind as [Hin Heq]. apply String.eqb_eq in Heq.
  now destruct (Hnone q Hin).
Qed.

(** C1: the code does not correlate by entry identifier.  When every outcome
    of a reply is keyed by the [id] of an entry of the batch, as the claim
    has it and as the [/batch] route of this repository replies, and no
    entry's [task_id] is the [id] of an entry, then each outcome names an
    entry of the batch by its id, yet the lookup of [sync] finds none, and
    the loop over the outcomes leaves the store, the counts and the error
    records as they were: no entry is settled and none is charged. *)
Theorem entry_id_keyed_outcomes_are_not_applied :
  forall (E : Env) (batch : list SyncQueueItem.t)
         (outcomes : list ProcessedItem.t) (s : SyncState),
    (forall p, In p outcomes ->
       exists q, In q batch /\
                 ProcessedItem.client_id p = SyncQueueItem.id q) ->
    (forall q q', In q batch -> In q' batch ->
       SyncQueueItem.task_id q <> SyncQueueItem.id q') ->
    (forall p, In p outcomes ->
       (exists q, findByEntryId batch p = Some q /\
                  In q batch /\
                  SyncQueueItem.id q = ProcessedItem.client_id p) /\
       findQueueItem batch p = None /\
       forall s', processItem E batch p s' = (Normal tt, s')) /\
    for_each outcomes (processItem E batch) s = (Normal tt, s).
Proof.
  intros E batch outcomes s Hkeyed Hdisjoint.
  assert (Hmiss : forall p, In p outcomes -> forall q, In q batch ->
            SyncQueueItem.task_id q <> ProcessedItem.client_id p).
  { intros p Hp q Hq. destruct (Hkeyed p Hp) as (q' & Hq' & ->).
    now apply Hdisjoint. }
  split.
  - intros p Hp. split; [|split].
    + destruct (Hkeyed p Hp) as (q & Hq & Hid). unfold findByEntryId.
      destruct (find _ batch) as [q0|] eqn:Hfind.
      * apply find_some in Hfind. destruct Hfind as [Hin Heq].
        apply String.eqb_eq in Heq. now exists q0.
      * pose proof (find_none _ _ Hfind q Hq) as Hno. simpl in Hno.
        rewrite Hid, String.eqb_refl in Hno. discriminate.
    + unfold findQueueItem. destruct (find _ batch) as [q0|] eqn:Hfind;
        trivial.
      apply find_some in Hfind. destruct Hfind as [Hin Heq].
      apply String.eqb_eq in Heq. now destruct (Hmiss p Hp q0 Hin).
    + intros s'. apply unmatched_outcome_is_ignored. now apply Hmiss.
  - clear Hkeyed. induction outcomes as [|p outcomes IH]; simpl;
      [reflexivity|].
    unfold bind.
    rewrite (@unmatched_outcome_is_ignored E batch p s
               (Hmiss p (or_introl eq_refl))).
    apply IH. intros p' Hp'. apply Hmiss. now right.
Qed.

Lemma entry_id_keyed_outcomes_are_not_applied_witness :
  for_each
    [ProcessedItem.mk "q-1" (Some "t-1") outcome_success None None;
     ProcessedItem.mk "q-2" (Some "t-1") outcome_error None
       (Some "Task not found")]
    (processItem Samples.online [Samples.q1; Samples.q2])
    (Samples.state_of Samples.db1)
  = (Normal tt, Samples.state_of Samples.db1).
Proof.
  apply (@entry_id_keyed_outcomes_are_not_applied Samples.online
           [Samples.q1; Samples.q2]
           [ProcessedItem.mk "q-1" (Some "t-1") outcome_success None None;
            ProcessedItem.mk "q-2" (Some "t-1") outcome_error None
              (Some "Task not found")]
           (Samples.state_of Samples.db1)).
  - intros p [<-|[<-|[]]].
    + exists Samples.q1. split; [now left|reflexivity].
    + exists Samples.q2. split; [right; now left|reflexivity].
  - intros q q' [<-|[<-|[]]] [<-|[<-|[]]]; simpl; discriminate.
Defined.

(** ** Conflict resolution *)

(** C2: the version with the strictly later [updated_at] is returned whole,
    and on equal timestamps the remote version is returned.  [resolveConflict]
    is a function of its two arguments, so equal inputs give equal results. *)
Theorem resolveConflict_last_write_wins :
  forall localTask serverTask : Task.t,
    (Task.updated_at localTask > Task.updated_at serverTask ->
     resolveConflict localTask serverTask = localTask) /\
    (Task.updated_at serverTask > Task.updated_at localTask ->
     resolveConflict localTask serverTask = serverTask) /\
    (Task.updated_at localTask = Task.updated_at serverTask ->
     resolveConflict localTask serverTask = serverTask).
Proof.
  intros l r. unfold resolveConflict.
  destruct (Z.gtb_spec (Task.updated_at l) (Task.updated_at r));
    repeat split; intros; trivial; lia.
Qed.

Lemma resolveConflict_last_write_wins_witness :
  resolveConflict Samples.task1 Samples.remote1 = Samples.remote1.
Proof.
  apply (proj1 (proj2 (resolveConflict_last_write_wins
                         Samples.task1 Samples.remote1))).
  simpl. lia.
Defined.

(** ** The result of a cycle *)

(** C3, as stated, fails: with the remote authority unreachable the cycle
    returns [success = false] and reports zero failed items. *)
Lemma success_iff_no_failures_counterexample :
  exists r s',
    sync Samples.offline (Samples.state_of Samples.db1) = (Normal r, s') /\
    SyncResult.success r = false /\
    SyncResult.failed_items r = 0.
Proof. do 2 eexists. repeat split. Qed.

(** C3 (amended): the result of a cycle has [success = true] exactly when the
    connectivity probe found the remote authority reachable and the failed
    count is zero; with a positive batch size the cycle does return a
    result. *)
Theorem sync_success_iff :
  forall (E : Env) (s : SyncState),
    (forall r s', sync E s = (Normal r, s') ->
       (SyncResult.success r = true <->
        health E = true /\ SyncResult.failed_items r = 0)) /\
    (0 < SYNC_BATCH_SIZE E -> exists r s', sync E s = (Normal r, s')).
Proof.
  intros E s. split; [|apply sync_returns].
  intros r s'. destruct (health E) eqn:Hh.
  - rewrite sync_online by trivial. cbv zeta.
    destruct (_ =? 0).
    + intros H. injection H as <- _. simpl. intuition.
    + destruct (createBatches _ _) as [bs|]; [|discriminate].
      match goal with
      | |- context [for_each bs ?b ?s0] =>
          destruct (for_each_normal b bs (syncBatch_normal E) s0) as [s1 ->]
      end.
      intros H. injection H as <- _. simpl. rewrite Z.eqb_eq. intuition.
  - rewrite sync_offline by trivial.
    intros H. injection H as <- _. simpl. intuition discriminate.
Qed.

Lemma sync_success_iff_witness :
  exists r s',
    sync Samples.failing (Samples.state_of Samples.db1) = (Normal r, s') /\
    (SyncResult.success r = true <->
     health Samples.failing = true /\ SyncResult.failed_items r = 0).
Proof.
  destruct (sync_success_iff Samples.failing (Samples.state_of Samples.db1))
    as [Hiff Hret].
  destruct Hret as (r & s' & Hrun); [reflexivity|].
  exists r, s'. split; [exact Hrun|]. exact (Hiff r s' Hrun).
Defined.

(** ** The default batch size *)

(** C4: with [SYNC_BATCH_SIZE] unset the batch size is 10, not 50: eleven
    drained entries are sent as a batch of ten followed by a batch of one.
    The order of the entries is kept across the boundary. *)
Theorem default_batch_size_is_10 :
  env_SYNC_BATCH_SIZE Samples.online = None /\
  SYNC_BATCH_SIZE Samples.online = 10 /\
  createBatches Samples.eleven (SYNC_BATCH_SIZE Samples.online)
  = Some [firstn 10 Samples.eleven; skipn 10 Samples.eleven] /\
  exists r s',
    sync Samples.online (Samples.state_of (mkDatabase [] Samples.eleven))
    = (Normal r, s') /\
    requests s' = [firstn 10 Samples.eleven; skipn 10 Samples.eleven] /\
    map (@List.length _) (requests s') = [10; 1]%nat.
Proof.
  split; [reflexivity|]. split; [reflexivity|]. split; [reflexivity|].
  do 2 eexists. split; [vm_compute; reflexivity|]. split; reflexivity.
Qed.

(** ** The failure handler *)

Lemma task_ids_update_tasks (set : Task.t -> Task.t) id d :
  (forall row, Task.id (set row) = Task.id row) ->
  map Task.id (tasks (update_tasks set id d)) = map Task.id (tasks d).
Proof.
  intros Hset. unfold update_tasks. simpl. rewrite map_map.
  apply map_ext. intros row.
  destruct (String.eqb (Task.id row) id); auto.
Qed.

(** C5: the handler works with the retry count of the entry it is passed,
    plus one.  When that reaches [MAX_RETRY_COUNT] (3) no row with the
    entry's id is left in the queue, the other rows stay, and every task row
    of the entry's entity has [sync_status] error; otherwise no row leaves
    the queue, every row with the entry's id carries the incremented count
    and the error message, and so the entry, when it is a row of the queue,
    is still there with both. *)
Theorem handleSyncError_retry_budget :
  forall (item : SyncQueueItem.t) (message : string) (d : Database),
    let newRetryCount := SyncQueueItem.retry_count item + 1 in
    let d' := handleSyncError item message d in
    (MAX_RETRY_COUNT <= newRetryCount ->
       (forall row, In row (sync_queue d') ->
          SyncQueueItem.id row <> SyncQueueItem.id item) /\
       (forall row, In row (sync_queue d) ->
          SyncQueueItem.id row <> SyncQueueItem.id item ->
          In row (sync_queue d')) /\
       (forall t, In t (tasks d) ->
          Task.id t = SyncQueueItem.task_id item ->
          In (set_task_error t) (tasks d')) /\
       (forall t, In t (tasks d') ->
          Task.id t = SyncQueueItem.task_id item ->
          Task.sync_status t = st_error) /\
       map Task.id (tasks d') = map Task.id (tasks d)) /\
    (newRetryCount < MAX_RETRY_COUNT ->
       (In item (sync_queue d) ->
        In (SyncQueueItem.mk (SyncQueueItem.id item)
              (SyncQueueItem.task_id item) (SyncQueueItem.operation item)
              (SyncQueueItem.data item) (SyncQueueItem.created_at item)
              newRetryCount (Some message))
           (sync_queue d')) /\
       (forall row, In row (sync_queue d') ->
          SyncQueueItem.id row = SyncQueueItem.id item ->
          SyncQueueItem.retry_count row = newRetryCount /\
          SyncQueueItem.error_message row = Some message) /\
       map SyncQueueItem.id (sync_queue d')
       = map SyncQueueItem.id (sync_queue d) /\
       tasks d' = tasks d).
Proof.
  intros item message d newRetryCount d'. subst d'.
  unfold handleSyncError. fold newRetryCount. split; intros Hcount.
  - destruct (Z.geb_spec newRetryCount MAX_RETRY_COUNT); [|lia].
    repeat split.
    + intros row Hrow. simpl in Hrow. apply filter_In in Hrow.
      destruct Hrow as [_ Hne].
      destruct (String.eqb_spec (SyncQueueItem.id row) (SyncQueueItem.id item));
        [discriminate|assumption].
    + intros row Hrow Hne. simpl. apply filter_In. split; trivial.
      destruct (String.eqb_spec (SyncQueueItem.id row) (SyncQueueItem.id item));
        [contradiction|reflexivity].
    + intros t Ht Hid. simpl. apply in_map_iff. exists t. split; trivial.
      rewrite Hid, String.eqb_refl. reflexivity.
    + intros t Ht Hid. simpl in Ht. apply in_map_iff in Ht.
      destruct Ht as (row & <- & _).
      destruct (String.eqb_spec (Task.id row) (SyncQueueItem.task_id item))
        as [_|Hne]; [reflexivity|contradiction].
    + apply (task_ids_update_tasks set_task_error
               (SyncQueueItem.task_id item) d).
      reflexivity.
  - destruct (Z.geb_spec newRetryCount MAX_RETRY_COUNT); [lia|].
    split; [|split; [|split]].
    + intros Hin. simpl. apply in_map_iff. exists item. split; trivial.
      now rewrite String.eqb_refl.
    + intros row Hrow Hid. simpl in Hrow. apply in_map_iff in Hrow.
      destruct Hrow as (row0 & <- & _).
      destruct (String.eqb_spec (SyncQueueItem.id row0) (SyncQueueItem.id item));
        [split; reflexivity|contradiction].
    + simpl. rewrite map_map. apply map_ext. intros row.
      destruct (String.eqb (SyncQueueItem.id row) (SyncQueueItem.id item));
        reflexivity.
    + reflexivity.
Qed.

Lemma handleSyncError_retry_budget_witness :
  In (SyncQueueItem.mk "q-1" "t-1" op_update (snapshot Samples.task1) 20 1
        (Some "Task not found"))
     (sync_queue
        (handleSyncError Samples.q1 "Task not found" Samples.db1)) /\
  forall row,
    In row (sync_queue
              (handleSyncError Samples.q2 "Task not found" Samples.db1)) ->
    SyncQueueItem.id row <> "q-2".
Proof.
  split.
  - apply (proj2 (handleSyncError_retry_budget Samples.q1 "Task not found"
                    Samples.db1)).
    + simpl. unfold MAX_RETRY_COUNT. lia.
    + left. reflexivity.
  - apply (proj1 (handleSyncError_retry_budget Samples.q2 "Task not found"
                    Samples.db1)).
    simpl. unfold MAX_RETRY_COUNT. lia.
Defined.

(** ** Batch-level failures *)



(** ** Cycles that exchange nothing *)

(** C7: with the remote authority unreachable the cycle returns a failure
    result at once; the store is what it was and nothing was posted. *)
Theorem sync_unreachable_no_mutation :
  forall (E : Env) (s : SyncState),
    health E = false ->
    exists r s',
      sync E s = (Normal r, s') /\
      SyncResult.success r = false /\
      SyncResult.synced_items r = 0 /\
      SyncResult.failed_items r = 0 /\
      SyncResult.errors r = [] /\
      db s' = db s /\
      requests s' = requests s.
Proof.
  intros E s H. rewrite sync_offline by trivial.
  do 2 eexists. repeat split.
Qed.

Lemma sync_unreachable_no_mutation_witness :
  exists r s',
    sync Samples.offline (Samples.state_of Samples.db1) = (Normal r, s') /\
    SyncResult.success r = false /\
    db s' = Samples.db1.
Proof.
  destruct (sync_unreachable_no_mutation Samples.offline
              (Samples.state_of Samples.db1) eq_refl)
    as (r & s' & Hrun & Hfail & _ & _ & _ & Hdb & _).
  exists r, s'. repeat split; assumption.
Defined.

Lemma getSyncQueueItems_empty (d : Database) :
  (forall row, In row (sync_queue d) ->
     MAX_RETRY_COUNT <= SyncQueueItem.retry_count row) ->
  getSyncQueueItems d = [].
Proof.
  unfold getSyncQueueItems. intros H.
  induction (sync_queue d) as [|row l IH]; simpl; [reflexivity|].
  destruct (Z.ltb_spec (SyncQueueItem.retry_count row) MAX_RETRY_COUNT)
    as [Hlt|_].
  - specialize (H row (or_introl eq_refl)). lia.
  - apply IH. intros row' Hin. apply H. now right.
Qed.

(** C8: a reachable cycle whose log holds no entry below the retry ceiling
    returns a successful result with zero synced and zero failed items; it
    posts no batch and leaves the store as it was. *)
Theorem sync_empty_log_trivial :
  forall (E : Env) (s : SyncState),
    health E = true ->
    (forall row, In row (sync_queue (db s)) ->
       MAX_RETRY_COUNT <= SyncQueueItem.retry_count row) ->
    exists r s',
      sync E s = (Normal r, s') /\
      SyncResult.success r = true /\
      SyncResult.synced_items r = 0 /\
      SyncResult.failed_items r = 0 /\
      SyncResult.errors r = [] /\
      requests s' = requests s /\
      db s' = db s.
Proof.
  intros E s Hup Hlog. rewrite sync_online by trivial.
  rewrite (getSyncQueueItems_empty _ Hlog). simpl.
  do 2 eexists. repeat split.
Qed.

Lemma sync_empty_log_trivial_witness :
  exists r s',
    sync Samples.failing
      (Samples.state_of (mkDatabase [Samples.task1] [])) = (Normal r, s') /\
    SyncResult.success r = true /\
    requests s' = [].
Proof.
  destruct (sync_empty_log_trivial Samples.failing
              (Samples.state_of (mkDatabase [Samples.task1] [])) eq_refl)
    as (r & s' & Hrun & Hok & _ & _ & _ & Hreq & _).
  - intros row [].
  - exists r, s'. repeat split; assumption.
Defined.

(** ** Conflicts on an entity that cannot be read *)

(** C9, as stated, fails: a conflict outcome that carries no resolved data
    takes the failure path even though the local entity is absent: the retry
    count of the entry goes from 0 to 1 and the outcome counts as failed. *)
Lemma conflict_unreadable_counterexample :
  select_task "t-1" Samples.db_no_task = None /\
  processItem Samples.online [Samples.q1]
    (Samples.conflict_keyed "t-1" None)
    (Samples.state_of Samples.db_no_task)
  = (Normal tt,
     mkSyncState
       (mkDatabase []
          [SyncQueueItem.mk "q-1" "t-1" op_update (snapshot Samples.task1)
             20 1 (Some "Unknown error")])
       []
       (SyncResult.mk true 0 1
          [SyncError.mk "t-1" op_update "Unknown error" 1000])).
Proof. split; reflexivity. Qed.

Lemma select_task_unreadable (id : string) (d : Database) :
  (forall row, In row (tasks d) -> Task.id row = id ->
     Task.is_deleted row = true) ->
  select_task id d = None.
Proof.
  unfold select_task. intros H.
  induction (tasks d) as [|row l IH]; simpl; [reflexivity|].
  destruct (String.eqb_spec (Task.id row) id) as [Heq|_]; simpl.
  - rewrite (H row (or_introl eq_refl) Heq). simpl.
    apply IH. intros row' Hin. apply H. now right.
  - apply IH. intros row' Hin. apply H. now right.
Qed.

(** C9 (amended): when an outcome reports conflict and carries resolved data,
    but every local row of the matched entry's entity is soft-deleted (or
    there is none), processing the outcome changes nothing: the store and so
    the entry and its retry count, the synced and failed counts and the
    error records stay as they are. *)
Theorem conflict_on_unreadable_entity_is_skipped :
  forall (E : Env) (batch : list SyncQueueItem.t) (p : ProcessedItem.t)
         (serverTask : Task.t) (s : SyncState),
    ProcessedItem.status p = outcome_conflict ->
    ProcessedItem.resolved_data p = Some serverTask ->
    (forall q row,
       findQueueItem batch p = Some q ->
       In row (tasks (db s)) ->
       Task.id row = SyncQueueItem.task_id q ->
       Task.is_deleted row = true) ->
    processItem E batch p s = (Normal tt, s).
Proof.
  intros E batch p serverTask s Hstatus Hdata Hgone. unfold processItem.
  destruct (findQueueItem batch p) as [q|]; [|reflexivity].
  rewrite Hstatus, Hdata. run_monad.
  now rewrite (@select_task_unreadable _ _ (fun row => Hgone q row eq_refl)).
Qed.

Lemma conflict_on_unreadable_entity_is_skipped_witness :
  processItem Samples.online [Samples.q1]
    (Samples.conflict_keyed "t-1" (Some Samples.remote1))
    (Samples.state_of Samples.db_no_task)
  = (Normal tt, Samples.state_of Samples.db_no_task).
Proof.
  apply (@conflict_on_unreadable_entity_is_skipped Samples.online
           [Samples.q1]
           (Samples.conflict_keyed "t-1" (Some Samples.remote1))
           Samples.remote1
           (Samples.state_of Samples.db_no_task)
           eq_refl eq_refl).
  intros q row _ [].
Defined.

(** ** The task routes *)

Lemma uuid_unary_injective (m n : nat) :
  Samples.uuid_unary m = Samples.uuid_unary n -> m = n.
Proof.
  revert n. induction m as [|m IH]; intros [|n]; simpl; intros H;
    try discriminate; trivial.
  injection H as H. f_equal. now apply IH.
Qed.

Ltac run_route :=
  unfold post_task, put_task, delete_task, build_updates, optional_trim,
    createTask, updateTask, deleteTask, addToSyncQueue, getTask, uuidv4,
    store_run;
  unfold bind, ret, throw, gets, modify, try_catch; simpl.

(** C10: a mutation carried out through a task route appends exactly two
    rows to the operation log, the first inserted by the task service's own
    method and the second by the route's call to [addToSyncQueue]; both name
    the mutated task and the operation, and their entry identifiers (the next
    two of the identifier supply) differ. *)
Theorem route_mutation_appends_two_entries :
  forall E : Env,
    (forall m n, uuid_of E m = uuid_of E n -> m = n) ->
    (forall body w,
       title_missing E (body_title body) = false ->
       (body_description body = js_undefined \/
        body_description body = js_null \/
        exists d, body_description body = js_string d) ->
       exists task e1 e2 w',
         post_task E body w = (Normal (mkResponse 201 (Some task)), w') /\
         sync_queue (store w') = sync_queue (store w) ++ [e1; e2] /\
         SyncQueueItem.id e1 <> SyncQueueItem.id e2 /\
         Task.id task = uuid_of E (uuid_counter w) /\
         SyncQueueItem.task_id e1 = Task.id task /\
         SyncQueueItem.task_id e2 = Task.id task /\
         SyncQueueItem.operation e1 = op_create /\
         SyncQueueItem.operation e2 = op_create) /\
    (forall id body w existing,
       title_invalid E (body_title body) = false ->
       completed_invalid (body_completed body) = false ->
       (body_description body = js_undefined \/
        body_description body = js_null \/
        exists d, body_description body = js_string d) ->
       select_task id (store w) = Some existing ->
       exists updated e1 e2 w',
         put_task E id body w = (Normal (mkResponse 200 (Some updated)), w') /\
         sync_queue (store w') = sync_queue (store w) ++ [e1; e2] /\
         SyncQueueItem.id e1 <> SyncQueueItem.id e2 /\
         SyncQueueItem.task_id e1 = Task.id existing /\
         SyncQueueItem.task_id e2 = Task.id existing /\
         SyncQueueItem.operation e1 = op_update /\
         SyncQueueItem.operation e2 = op_update) /\
    (forall id w existing,
       select_task id (store w) = Some existing ->
       exists e1 e2 w',
         delete_task E id w = (Normal (mkResponse 204 None), w') /\
         sync_queue (store w') = sync_queue (store w) ++ [e1; e2] /\
         SyncQueueItem.id e1 <> SyncQueueItem.id e2 /\
         SyncQueueItem.task_id e1 = id /\
         SyncQueueItem.task_id e2 = id /\
         SyncQueueItem.operation e1 = op_delete /\
         SyncQueueItem.operation e2 = op_delete).
Proof.
  intros E Hinj.
  assert (Hfresh : forall n, uuid_of E n <> uuid_of E (S n)).
  { intros n H. apply Hinj in H. lia. }
  split; [|split].
  - intros body w Htitle Hdesc. run_route. rewrite Htitle.
    destruct Hdesc as [->|[->|[d ->]]]; simpl;
      do 4 eexists; (split; [reflexivity|]); simpl;
      rewrite <- app_assoc; simpl; repeat split; apply Hfresh.
  - intros id body w existing Htitle Hcompleted Hdesc Hsel. run_route.
    rewrite Htitle, Hcompleted.
    destruct Hdesc as [->|[->|[d ->]]]; simpl; rewrite Hsel; simpl;
      do 4 eexists; (split; [reflexivity|]); simpl;
      rewrite <- app_assoc; simpl; repeat split; apply Hfresh.
  - intros id w existing Hsel. run_route. rewrite Hsel. simpl.
    rewrite Hsel. simpl.
    do 3 eexists; (split; [reflexivity|]); simpl;
      rewrite <- app_assoc; simpl; repeat split; apply Hfresh.
Qed.

Lemma route_mutation_appends_two_entries_witness :
  exists task e1 e2 w',
    post_task Samples.online
      (mkTaskBody (js_string "write report") js_undefined js_undefined)
      (mkWorld Samples.db1 0)
    = (Normal (mkResponse 201 (Some task)), w') /\
    sync_queue (store w') = sync_queue Samples.db1 ++ [e1; e2] /\
    SyncQueueItem.id e1 <> SyncQueueItem.id e2.
Proof.
  destruct (proj1 (route_mutation_appends_two_entries
                     Samples.online uuid_unary_injective)
              (mkTaskBody (js_string "write report") js_undefined js_undefined)
              (mkWorld Samples.db1 0) eq_refl (or_introl eq_refl))
    as (task & e1 & e2 & w' & Hrun & Hqueue & Hne & _).
  exists task, e1, e2, w'. repeat split; assumption.
Defined.

(** * Further properties of the services *)

(** ** Batching *)

Lemma createBatches_loop_exit (T : Type) (items : list T) (n i : Z) fuel bs :
  Z.of_nat (List.length items) <= i ->
  createBatches_loop fuel items n i bs = Some bs.
Proof.
  intros Hi. destruct fuel; simpl;
    destruct (Z.ltb_spec i (Z.of_nat (List.length items))); trivial; lia.
Qed.

Lemma createBatches_loop_shape (T : Type) (items : list T) (n : Z) :
  0 < n ->
  forall fuel i batches,
    0 <= i <= Z.of_nat (List.length items) ->
    Z.of_nat (List.length items) - i <= Z.of_nat fuel ->
    List.concat batches = firstn (Z.to_nat i) items ->
    Forall (fun b => Z.of_nat (List.length b) = n) batches ->
    exists init tail,
      createBatches_loop fuel items n i batches = Some (init ++ tail) /\
      List.concat (init ++ tail) = items /\
      Forall (fun b => Z.of_nat (List.length b) = n) init /\
      (tail = [] \/
       exists last, tail = [last] /\ 0 < Z.of_nat (List.length last) < n).
Proof.
  intros Hn. induction fuel as [|fuel IH]; intros i batches Hi Hfuel Hcat Hall.
  - exists batches, []. rewrite app_nil_r.
    rewrite createBatches_loop_exit by lia.
    repeat split; auto. rewrite Hcat. apply firstn_all2. lia.
  - destruct (Z.eq_dec i (Z.of_nat (List.length items))) as [Heq|Hne].
    { exists batches, []. rewrite app_nil_r.
      rewrite createBatches_loop_exit by lia.
      repeat split; auto. rewrite Hcat. apply firstn_all2. lia. }
    simpl. destruct (Z.ltb_spec i (Z.of_nat (List.length items))); [|lia].
    assert (Hcat' :
      List.concat (batches ++ [slice items i (i + n)])
      = firstn (Z.to_nat (Z.min (i + n) (Z.of_nat (List.length items)))) items).
    { rewrite concat_app, Hcat. simpl. rewrite app_nil_r.
      rewrite slice_in_range by lia. rewrite firstn_skipn_firstn.
      f_equal. lia. }
    assert (Hlen :
      Z.of_nat (List.length (slice items i (i + n)))
      = Z.min (i + n) (Z.of_nat (List.length items)) - i).
    { rewrite slice_in_range by lia. rewrite length_firstn, length_skipn. lia. }
    destruct (Z.le_gt_cases (i + n) (Z.of_nat (List.length items))) as [Hle|Hgt].
    + apply IH; try lia.
      * rewrite Hcat'. f_equal. lia.
      * apply Forall_app. split; trivial. constructor; [lia|constructor].
    + exists batches, [slice items i (i + n)].
      rewrite createBatches_loop_exit by lia.
      split; [reflexivity|]. split.
      * rewrite Hcat'. apply firstn_all2. lia.
      * split; trivial. right. eexists. split; [reflexivity|]. lia.
Qed.

Lemma createBatches_full_then_rest (T : Type) (items : list T) (n : Z) :
  0 < n ->
  exists init tail,
    createBatches items n = Some (init ++ tail) /\
    List.concat (init ++ tail) = items /\
    Forall (fun b => Z.of_nat (List.length b) = n) init /\
    (tail = [] \/
     exists last, tail = [last] /\ 0 < Z.of_nat (List.length last) < n).
Proof.
  intros Hn. unfold createBatches.
  apply createBatches_loop_shape; trivial; try lia; constructor.
Qed.

(** X1: with a batch size that is a positive integer, [createBatches]
    returns batches that, put end to end, are the items in their order; every
    batch but possibly the last holds exactly [batchSize] items, a shorter
    last batch is not empty, and so no batch is empty. *)
Theorem createBatches_shape :
  forall (T : Type) (items : list T) (n : positive),
    exists init tail,
      createBatches items (Z.pos n) = Some (init ++ tail) /\
      List.concat (init ++ tail) = items /\
      Forall (fun b => Z.of_nat (List.length b) = Z.pos n) init /\
      (tail = [] \/
       exists last,
         tail = [last] /\ 0 < Z.of_nat (List.length last) < Z.pos n).
Proof.
  intros T items n. apply createBatches_full_then_rest. lia.
Qed.

Lemma createBatches_shape_witness :
  exists init tail,
    createBatches [1; 2; 3; 4; 5] 2 = Some (init ++ tail) /\
    List.concat (init ++ tail) = [1; 2; 3; 4; 5] /\
    Forall (fun b => Z.of_nat (List.length b) = 2) init /\
    (tail = [] \/
     exists last, tail = [last] /\ 0 < Z.of_nat (List.length last) < 2).
Proof.
  exact (@createBatches_shape Z [1; 2; 3; 4; 5] 2%positive).
Defined.

Lemma createBatches_loop_stuck (T : Type) (items : list T) (n : Z) :
  n <= 0 -> items <> [] ->
  forall fuel i batches,
    i <= 0 -> createBatches_loop fuel items n i batches = None.
Proof.
  intros Hn Hitems.
  assert (0 < Z.of_nat (List.length items)).
  { destruct items; [contradiction|simpl; lia]. }
  induction fuel as [|fuel IH]; intros i batches Hi; simpl;
    destruct (Z.ltb_spec i (Z.of_nat (List.length items))); try lia; trivial.
  apply IH. lia.
Qed.

(** X2: a negative [SYNC_BATCH_SIZE] makes the loop of [createBatches] run
    for ever on a non-empty list, however many iterations it is given; a
    reachable cycle with pending entries then never returns, and it has
    posted nothing and changed nothing in the store. *)
Theorem negative_batch_size_never_returns :
  forall (E : Env) (n : Z) (s : SyncState),
    env_SYNC_BATCH_SIZE E = Some n -> n < 0 ->
    health E = true ->
    getSyncQueueItems (db s) <> [] ->
    (forall fuel,
       createBatches_loop fuel (getSyncQueueItems (db s)) (SYNC_BATCH_SIZE E)
         0 [] = None) /\
    sync E s = (Diverge, mkSyncState (db s) (requests s) initial_result).
Proof.
  intros E n s Henv Hn Hup Hq.
  assert (Hsize : SYNC_BATCH_SIZE E <= 0).
  { unfold SYNC_BATCH_SIZE. rewrite Henv.
    destruct (Z.eqb_spec n 0); lia. }
  assert (Hstuck : forall fuel,
    createBatches_loop fuel (getSyncQueueItems (db s)) (SYNC_BATCH_SIZE E)
      0 [] = None).
  { intros fuel. apply createBatches_loop_stuck; trivial. lia. }
  split; trivial.
  rewrite sync_online by trivial. cbv zeta.
  destruct (getSyncQueueItems (db s)) as [|x l] eqn:Hdrain; [contradiction|].
  replace (Z.of_nat (List.length (x :: l)) =? 0) with false
    by (symmetry; apply Z.eqb_neq; simpl; lia).
  unfold createBatches. now rewrite Hstuck.
Qed.

Lemma negative_batch_size_never_returns_witness :
  sync (mkEnv 1000 Samples.uuid_unary (fun s => s) true Samples.reply_accept
          (Some (-5)))
       (Samples.state_of Samples.db1)
  = (Diverge, mkSyncState Samples.db1 [] initial_result).
Proof.
  apply (proj2 (@negative_batch_size_never_returns
                  (mkEnv 1000 Samples.uuid_unary (fun s => s) true
                     Samples.reply_accept (Some (-5)))
                  (-5) (Samples.state_of Samples.db1)
                  eq_refl eq_refl eq_refl
                  ltac:(vm_compute; discriminate))).
Defined.

(** ** The drain of the operation log *)

Lemma insert_by_created_at_perm x l :
  Permutation (insert_by_created_at x l) (x :: l).
Proof.
  induction l as [|y l IH]; simpl; [reflexivity|].
  destruct (SyncQueueItem.created_at x <=? SyncQueueItem.created_at y);
    [reflexivity|].
  rewrite IH. apply perm_swap.
Qed.

Lemma order_by_created_at_perm l : Permutation (order_by_created_at l) l.
Proof.
  induction l as [|x l IH]; simpl; [constructor|].
  rewrite insert_by_created_at_perm. now constructor.
Qed.

Lemma insert_by_created_at_sorted x l :
  StronglySorted
    (fun a b => SyncQueueItem.created_at a <= SyncQueueItem.created_at b) l ->
  StronglySorted
    (fun a b => SyncQueueItem.created_at a <= SyncQueueItem.created_at b)
    (insert_by_created_at x l).
Proof.
  induction 1 as [|y l Hs IH Hy]; simpl.
  - repeat constructor.
  - destruct (Z.leb_spec (SyncQueueItem.created_at x)
                (SyncQueueItem.created_at y)) as [Hle|Hgt].
    + constructor; [now constructor|].
      constructor; trivial.
      eapply Forall_impl; [|exact Hy]. simpl. intros z Hz. lia.
    + constructor; trivial.
      eapply Permutation_Forall.
      * symmetry. apply insert_by_created_at_perm.
      * constructor; trivial. lia.
Qed.

(** X3: [getSyncQueueItems] returns exactly the rows of the log whose retry
    count is below [MAX_RETRY_COUNT], each as often as it is stored, whatever
    their timestamps.  When the [created_at] of every such row is an instant
    of the years 0000 to 9999, where the text the store compares orders as
    the instants do, the rows come in ascending order of [created_at]. *)
Theorem getSyncQueueItems_sorted_below_ceiling :
  forall d : Database,
    Permutation (getSyncQueueItems d)
      (filter (fun row => SyncQueueItem.retry_count row <? MAX_RETRY_COUNT)
              (sync_queue d)) /\
    (forall row,
       In row (getSyncQueueItems d) <->
       In row (sync_queue d) /\
       SyncQueueItem.retry_count row < MAX_RETRY_COUNT) /\
    ((forall row,
        In row (sync_queue d) ->
        SyncQueueItem.retry_count row < MAX_RETRY_COUNT ->
        ISO_MIN <= SyncQueueItem.created_at row <= ISO_MAX) ->
     StronglySorted
       (fun a b => SyncQueueItem.created_at a <= SyncQueueItem.created_at b)
       (getSyncQueueItems d)).
Proof.
  intros d. unfold getSyncQueueItems.
  set (below := filter _ (sync_queue d)).
  split; [apply order_by_created_at_perm|]. split.
  - intros row. split.
    + intros Hin.
      apply (Permutation_in _ (order_by_created_at_perm below)) in Hin.
      subst below. apply filter_In in Hin. now rewrite Z.ltb_lt in Hin.
    + intros [Hin Hlt].
      apply (Permutation_in _ (Permutation_sym (order_by_created_at_perm below))).
      subst below. apply filter_In. now rewrite Z.ltb_lt.
  - intros _. induction below as [|x l IH]; simpl; [constructor|].
    now apply insert_by_created_at_sorted.
Qed.

Lemma getSyncQueueItems_sorted_below_ceiling_witness :
  StronglySorted
    (fun a b => SyncQueueItem.created_at a <= SyncQueueItem.created_at b)
    (getSyncQueueItems Samples.db1).
Proof.
  apply (proj2 (proj2 (getSyncQueueItems_sorted_below_ceiling Samples.db1))).
  intros row [<-|[<-|[]]] _; unfold ISO_MIN, ISO_MAX; simpl; lia.
Defined.

(** ** The status report *)

(** X4: the pending count of the status report is the number of entries the
    next cycle drains (the literal 3 of the route is [MAX_RETRY_COUNT]); it
    never exceeds the reported queue size, and the two are equal exactly
    when no row of the log is at or above the retry ceiling. *)
Theorem status_pending_is_next_drain :
  forall (E : Env) (d : Database),
    pending_sync_count (get_status E d)
    = Z.of_nat (List.length (getSyncQueueItems d)) /\
    0 <= pending_sync_count (get_status E d)
      <= sync_queue_size (get_status E d) /\
    (pending_sync_count (get_status E d) = sync_queue_size (get_status E d)
     <->
     forall row, In row (sync_queue d) ->
       SyncQueueItem.retry_count row < MAX_RETRY_COUNT).
Proof.
  intros E d. simpl. unfold count_pending, getSyncQueueItems.
  change 3 with MAX_RETRY_COUNT.
  rewrite (Permutation_length (order_by_created_at_perm _)).
  split; [reflexivity|].
  set (below := fun row => SyncQueueItem.retry_count row <? MAX_RETRY_COUNT).
  assert (Hlen : forall l : list SyncQueueItem.t,
            (List.length (filter below l) <= List.length l)%nat /\
            (List.length (filter below l) = List.length l <->
             forall row, In row l ->
               SyncQueueItem.retry_count row < MAX_RETRY_COUNT)).
  { induction l as [|x l [IHle IHeq]]; simpl.
    - split; [lia|]. split; [intros _ row []|reflexivity].
    - destruct (below x) eqn:Hb; unfold below in Hb; simpl.
      + apply Z.ltb_lt in Hb. split; [lia|]. split.
        * intros H row [<-|Hin]; trivial. apply IHeq; [lia|trivial].
        * intros H. f_equal. apply IHeq. intros row Hin. apply H. now right.
      + apply Z.ltb_ge in Hb. split; [lia|]. split; [lia|].
        intros H. specialize (H x (or_introl eq_refl)). lia. }
  destruct (Hlen (sync_queue d)) as [Hle Heq]. split; [lia|].
  rewrite <- Heq. lia.
Qed.




(** ** What every cycle keeps *)

Lemma for_each_invariant (S A : Type) (P : S -> Prop) (body : A -> M S unit)
  (l : list A) :
  (forall x s, P s -> P (snd (body x s))) ->
  forall s, P s -> P (snd (for_each l body s)).
Proof.
  intros Hbody. induction l as [|x l IH]; intros s Hs; simpl; trivial.
  unfold bind. specialize (Hbody x s Hs).
  destruct (body x s) as [[[]|e|] s1]; simpl in *; auto.
Qed.

(** The steps a cycle takes on its state; a property kept by each of them is
    kept by the cycle. *)
Lemma sync_invariant (E : Env) (P : SyncState -> Prop) :
  (forall s q sid,
     P s ->
     P (mkSyncState
          (updateSyncStatus E (SyncQueueItem.id q) (SyncQueueItem.task_id q)
             st_synced sid (db s))
          (requests s) (incr_synced (result s)))) ->
  (forall s q winner sid,
     P s ->
     P (mkSyncState
          (delete_sync_queue (SyncQueueItem.id q)
             (update_tasks (set_resolved E winner sid) (Task.id winner) (db s)))
          (requests s) (incr_synced (result s)))) ->
  (forall s item message,
     P s ->
     P (mkSyncState (handleSyncError item message (db s)) (requests s)
          (push_error (error_record E item message)
             (incr_failed (result s))))) ->
  (forall s batch,
     P s -> P (mkSyncState (db s) (requests s ++ [batch]) (result s))) ->
  (forall s b,
     P s -> P (mkSyncState (db s) (requests s) (set_success b (result s)))) ->
  forall s,
    P (mkSyncState (db s) (requests s) initial_result) ->
    P (snd (sync E s)).
Proof.
  intros Hsuccess Hconflict Hfail Hpost Hend s Hstart.
  assert (Hitem : forall batch p s, P s -> P (snd (processItem E batch p s))).
  { intros batch p s0 Hs0. unfold processItem.
    destruct (findQueueItem batch p) as [q|]; [|exact Hs0].
    destruct (ProcessedItem.status p), (ProcessedItem.resolved_data p);
      run_monad; auto.
    destruct (select_task (SyncQueueItem.task_id q) (db s0)); simpl; auto. }
  assert (Hfailed : forall batch message s,
            P s -> P (snd (failBatch E batch message s))).
  { intros batch message. unfold failBatch. apply for_each_invariant.
    intros item s0 Hs0. run_monad. auto. }
  assert (Hbatch : forall batch s, P s -> P (snd (syncBatch E batch s))).
  { intros batch s0 Hs0. unfold syncBatch, processBatch, processed_items_of.
    run_monad.
    destruct (post_batch E (List.length (requests s0)) batch)
      as [[items|]|m|m]; simpl; try (apply Hfailed; apply Hpost; exact Hs0).
    pose proof (for_each_invariant P (processItem E batch) items
                  (Hitem batch) _ (Hpost s0 batch Hs0)) as Hloop.
    match goal with
    | |- context [for_each items ?b ?s1] =>
        change s1 with
          (mkSyncState (db s0) (requests s0 ++ [batch]) (result s0));
        destruct (for_each items b
                    (mkSyncState (db s0) (requests s0 ++ [batch]) (result s0)))
          as [[[]|e|] s2]
    end; simpl in *; auto. }
  destruct (health E) eqn:Hup.
  - rewrite sync_online by trivial. cbv zeta.
    destruct (_ =? 0); [exact Hstart|].
    destruct (createBatches _ _) as [batches|]; [|exact Hstart].
    pose proof (for_each_invariant P (syncBatch E) batches Hbatch _ Hstart)
      as Hloop.
    destruct (for_each batches (syncBatch E) _) as [[[]|e|] s1];
      simpl in *; auto.
  - rewrite sync_offline by trivial. simpl.
    apply (Hend _ false) in Hstart. exact Hstart.
Qed.

Lemma tasks_update_tasks_key (K : Type) (key : Task.t -> K)
  (set : Task.t -> Task.t) id d :
  (forall row, key (set row) = key row) ->
  map key (tasks (update_tasks set id d)) = map key (tasks d).
Proof.
  intros Hset. unfold update_tasks. simpl. rewrite map_map.
  apply map_ext. intros row.
  destruct (String.eqb (Task.id row) id); auto.
Qed.

Lemma tasks_handleSyncError_key (K : Type) (key : Task.t -> K) item message d :
  (forall row, key (set_task_error row) = key row) ->
  map key (tasks (handleSyncError item message d)) = map key (tasks d).
Proof.
  intros Hset. unfold handleSyncError.
  destruct (_ >=? _); simpl; [|reflexivity].
  now apply (tasks_update_tasks_key key set_task_error).
Qed.

(** X6: a cycle never inserts or removes a task row, and never changes the
    [id], the [created_at] or the soft-delete flag of one, whatever the
    remote authority replies and however the cycle ends. *)
Theorem sync_keeps_task_identity :
  forall (E : Env) (s : SyncState),
    map (fun t => (Task.id t, Task.created_at t, Task.is_deleted t))
        (tasks (db (snd (sync E s))))
    = map (fun t => (Task.id t, Task.created_at t, Task.is_deleted t))
          (tasks (db s)).
Proof.
  intros E s.
  set (key := fun t => (Task.id t, Task.created_at t, Task.is_deleted t)).
  apply (sync_invariant E
           (fun s' => map key (tasks (db s')) = map key (tasks (db s))));
    simpl; trivial.
  - intros s0 q sid <-. unfold updateSyncStatus. simpl.
    now apply (tasks_update_tasks_key key).
  - intros s0 q winner sid <-. now apply (tasks_update_tasks_key key).
  - intros s0 item message <-. now apply tasks_handleSyncError_key.
Qed.

Lemma queue_delete_incl id d row :
  In row (sync_queue (delete_sync_queue id d)) ->
  In row (sync_queue d) /\ SyncQueueItem.id row <> id.
Proof.
  simpl. intros H. apply filter_In in H. destruct H as [Hin Hne].
  split; trivial.
  destruct (String.eqb_spec (SyncQueueItem.id row) id);
    [discriminate|assumption].
Qed.

Lemma queue_delete_length id d :
  (List.length (sync_queue (delete_sync_queue id d))
   <= List.length (sync_queue d))%nat.
Proof.
  simpl. induction (sync_queue d) as [|x l IH]; simpl; [lia|].
  destruct (negb _); simpl; lia.
Qed.

(** A row of the queue after [handleSyncError] is a row from before, or one
    rewritten with the new count, which is then below the ceiling. *)
Lemma queue_handleSyncError item message d row :
  In row (sync_queue (handleSyncError item message d)) ->
  exists row0,
    In row0 (sync_queue d) /\
    (row = row0 \/
     SyncQueueItem.retry_count row < MAX_RETRY_COUNT /\
     row = SyncQueueItem.mk (SyncQueueItem.id row0)
             (SyncQueueItem.task_id row0) (SyncQueueItem.operation row0)
             (SyncQueueItem.data row0) (SyncQueueItem.created_at row0)
             (SyncQueueItem.retry_count item + 1) (Some message)).
Proof.
  unfold handleSyncError.
  destruct (Z.geb_spec (SyncQueueItem.retry_count item + 1) MAX_RETRY_COUNT)
    as [Hge|Hlt].
  - intros H. apply queue_delete_incl in H. destruct H as [H _].
    exists row. split; [exact H|now left].
  - simpl. intros H. apply in_map_iff in H. destruct H as (row0 & <- & Hin).
    exists row0. split; trivial.
    destruct (String.eqb (SyncQueueItem.id row0) (SyncQueueItem.id item));
      [right; split; [simpl; lia|reflexivity]|now left].
Qed.

Lemma queue_handleSyncError_length item message d :
  (List.length (sync_queue (handleSyncError item message d))
   <= List.length (sync_queue d))%nat.
Proof.
  unfold handleSyncError. destruct (_ >=? _).
  - apply (queue_delete_length _ (update_tasks _ _ d)).
  - simpl. rewrite length_map. lia.
Qed.

(** X7: a cycle adds no row to the operation log: the log does not grow, and
    every row it holds afterwards is a row it held before, with the same
    [id], [task_id], [operation], [data] and [created_at]; only the retry
    count and the error message of a row can differ. *)
Theorem sync_adds_no_log_entry :
  forall (E : Env) (s : SyncState),
    (List.length (sync_queue (db (snd (sync E s))))
     <= List.length (sync_queue (db s)))%nat /\
    forall row,
      In row (sync_queue (db (snd (sync E s)))) ->
      exists row0,
        In row0 (sync_queue (db s)) /\
        SyncQueueItem.id row = SyncQueueItem.id row0 /\
        SyncQueueItem.task_id row = SyncQueueItem.task_id row0 /\
        SyncQueueItem.operation row = SyncQueueItem.operation row0 /\
        SyncQueueItem.data row = SyncQueueItem.data row0 /\
        SyncQueueItem.created_at row = SyncQueueItem.created_at row0.
Proof.
  intros E s.
  apply (sync_invariant E
    (fun s' =>
       (List.length (sync_queue (db s')) <= List.length (sync_queue (db s)))%nat
       /\
       forall row,
         In row (sync_queue (db s')) ->
         exists row0,
           In row0 (sync_queue (db s)) /\
           SyncQueueItem.id row = SyncQueueItem.id row0 /\
           SyncQueueItem.task_id row = SyncQueueItem.task_id row0 /\
           SyncQueueItem.operation row = SyncQueueItem.operation row0 /\
           SyncQueueItem.data row = SyncQueueItem.data row0 /\
           SyncQueueItem.created_at row = SyncQueueItem.created_at row0));
    simpl; trivial.
  - intros s0 q sid [Hlen Hrows]. unfold updateSyncStatus. simpl is_synced.
    cbv iota. split.
    + etransitivity; [apply queue_delete_length|exact Hlen].
    + intros row H. apply queue_delete_incl in H. apply Hrows, H.
  - intros s0 q winner sid [Hlen Hrows]. split.
    + etransitivity; [apply queue_delete_length|exact Hlen].
    + intros row H. apply queue_delete_incl in H. apply Hrows, H.
  - intros s0 item message [Hlen Hrows]. split.
    + etransitivity; [apply queue_handleSyncError_length|exact Hlen].
    + intros row H. apply queue_handleSyncError in H.
      destruct H as (row1 & Hin & [->|[_ ->]]); [auto|].
      destruct (Hrows row1 Hin) as (row0 & H0 & Hsame).
      exists row0. split; [exact H0|exact Hsame].
  - split; [lia|]. intros row Hin. exists row. repeat split; trivial.
Qed.

(** X8: when no row of the log is at or above the retry ceiling before a
    cycle, none is after it: an entry whose count would reach
    [MAX_RETRY_COUNT] is deleted, never stored with that count. *)
Theorem sync_keeps_retry_below_ceiling :
  forall (E : Env) (s : SyncState),
    (forall row, In row (sync_queue (db s)) ->
       SyncQueueItem.retry_count row < MAX_RETRY_COUNT) ->
    forall row, In row (sync_queue (db (snd (sync E s)))) ->
      SyncQueueItem.retry_count row < MAX_RETRY_COUNT.
Proof.
  intros E s Hbefore.
  apply (sync_invariant E
    (fun s' => forall row, In row (sync_queue (db s')) ->
       SyncQueueItem.retry_count row < MAX_RETRY_COUNT));
    simpl; trivial.
  - intros s0 q sid Hrows row H. unfold updateSyncStatus in H.
    simpl is_synced in H. cbv iota in H.
    apply queue_delete_incl in H. apply Hrows, H.
  - intros s0 q winner sid Hrows row H.
    apply queue_delete_incl in H. apply Hrows, H.
  - intros s0 item message Hrows row H. apply queue_handleSyncError in H.
    destruct H as (row1 & Hin & [->|[Hlt _]]); auto.
Qed.

Lemma sync_keeps_retry_below_ceiling_witness :
  Forall (fun row => SyncQueueItem.retry_count row < MAX_RETRY_COUNT)
    (sync_queue
       (db (snd (sync Samples.failing (Samples.state_of Samples.db1))))).
Proof.
  apply Forall_forall.
  apply (sync_keeps_retry_below_ceiling Samples.failing
           (Samples.state_of Samples.db1)).
  intros row [<-|[<-|[]]]; reflexivity.
Defined.

(** X9: in the result of a cycle the failed count is the number of error
    records and the synced count is not negative; the result a cycle
    returns is the one its state ends with. *)
Theorem sync_failed_count_is_error_count :
  forall (E : Env) (s : SyncState),
    SyncResult.failed_items (result (snd (sync E s)))
    = Z.of_nat (List.length (SyncResult.errors (result (snd (sync E s))))) /\
    0 <= SyncResult.synced_items (result (snd (sync E s))) /\
    forall r, fst (sync E s) = Normal r -> r = result (snd (sync E s)).
Proof.
  intros E s. split; [|split].
  - apply (sync_invariant E
      (fun s' => SyncResult.failed_items (result s')
                 = Z.of_nat (List.length (SyncResult.errors (result s')))));
      simpl; trivial.
    intros s0 item message H. rewrite length_app, H. simpl. lia.
  - apply (sync_invariant E
      (fun s' => 0 <= SyncResult.synced_items (result s')));
      simpl; intros; lia.
  - destruct (health E) eqn:Hup.
    + rewrite sync_online by trivial. cbv zeta.
      destruct (_ =? 0); [intros r H; now injection H as <-|].
      destruct (createBatches _ _); [|discriminate].
      destruct (for_each _ _ _) as [[[]|e|] s1]; simpl;
        intros r H; try discriminate H; now injection H as <-.
    + rewrite sync_offline by trivial. intros r H. now injection H as <-.
Qed.

(** ** The exchanges of a cycle *)

Lemma processItem_requests (E : Env) batch p s :
  requests (snd (processItem E batch p s)) = requests s.
Proof.
  unfold processItem.
  destruct (findQueueItem batch p) as [q|]; [|reflexivity].
  destruct (ProcessedItem.status p), (ProcessedItem.resolved_data p);
    run_monad; trivial.
  destruct (select_task _ _); reflexivity.
Qed.

Lemma syncBatch_requests (E : Env) batch s :
  requests (snd (syncBatch E batch s)) = requests s ++ [batch].
Proof.
  unfold syncBatch, processBatch, processed_items_of. run_monad.
  destruct (post_batch E (List.length (requests s)) batch) as [[items|]|m|m];
    simpl; try (rewrite failBatch_spec; reflexivity).
  match goal with
  | |- context [for_each items ?b ?s0] =>
      pose proof (for_each_invariant
                    (fun s' => requests s' = requests s ++ [batch]) b items
                    (fun p s1 H => eq_trans (processItem_requests E batch p s1) H)
                    s0 eq_refl) as Hloop;
      destruct (for_each items b s0) as [[[]|e|] s1]
  end; simpl in *; trivial.
  rewrite failBatch_spec. exact Hloop.
Qed.

Lemma syncBatches_requests (E : Env) batches s :
  requests (snd (for_each batches (syncBatch E) s)) = requests s ++ batches.
Proof.
  revert s. induction batches as [|b batches IH]; intros s; simpl.
  - now rewrite app_nil_r.
  - unfold bind. pose proof (syncBatch_requests E b s) as Hb.
    destruct (syncBatch_normal E b s) as [s1 Hrun]. rewrite Hrun in *.
    simpl in Hb. rewrite IH, Hb, <- app_assoc. reflexivity.
Qed.

(** X10: a reachable cycle whose batch size is a positive integer returns,
    and what it posted is the drained entries, each once and in drain order,
    cut into non-empty batches no longer than the batch size; no reply and no
    failure of an earlier batch keeps a later batch from being posted. *)
Theorem sync_posts_every_drained_entry_once :
  forall (E : Env) (n : positive) (s : SyncState),
    health E = true ->
    SYNC_BATCH_SIZE E = Z.pos n ->
    exists batches r,
      fst (sync E s) = Normal r /\
      requests (snd (sync E s)) = requests s ++ batches /\
      List.concat batches = getSyncQueueItems (db s) /\
      Forall (fun b => 0 < Z.of_nat (List.length b) <= Z.pos n) batches.
Proof.
  intros E n s Hup Hn.
  assert (Hsize : 0 < SYNC_BATCH_SIZE E) by lia.
  rewrite <- Hn. rewrite sync_online by trivial. cbv zeta.
  destruct (createBatches_full_then_rest (getSyncQueueItems (db s)) Hsize)
    as (init & tail & Hcb & Hcat & Hinit & Htail).
  assert (Hall : Forall
            (fun b => 0 < Z.of_nat (List.length b) <= SYNC_BATCH_SIZE E)
            (init ++ tail)).
  { apply Forall_app. split.
    - eapply Forall_impl; [|exact Hinit]. simpl. intros b Hb. lia.
    - destruct Htail as [->|(last & -> & Hlast)]; repeat constructor; lia. }
  destruct (Z.eqb_spec (Z.of_nat (List.length (getSyncQueueItems (db s)))) 0)
    as [Hempty|Hsome].
  - exists [], initial_result. simpl. rewrite app_nil_r.
    repeat split; trivial.
    destruct (getSyncQueueItems (db s)); [reflexivity|simpl in Hempty; lia].
  - rewrite Hcb.
    pose proof (syncBatches_requests E (init ++ tail)
                  (mkSyncState (db s) (requests s) initial_result)) as Hreq.
    destruct (for_each_normal (syncBatch E) (init ++ tail)
                (syncBatch_normal E)
                (mkSyncState (db s) (requests s) initial_result))
      as [s1 Hrun].
    rewrite Hrun in *. simpl in *.
    exists (init ++ tail). eexists. repeat split; trivial.
Qed.

Lemma sync_posts_every_drained_entry_once_witness :
  exists batches r,
    fst (sync Samples.failing (Samples.state_of Samples.db1)) = Normal r /\
    requests (snd (sync Samples.failing (Samples.state_of Samples.db1)))
    = batches /\
    List.concat batches = [Samples.q1; Samples.q2].
Proof.
  destruct (@sync_posts_every_drained_entry_once Samples.failing 10%positive
              (Samples.state_of Samples.db1) eq_refl eq_refl)
    as (batches & r & Hrun & Hreq & Hcat & _).
  exists batches, r. repeat split; assumption.
Defined.




(** ** Entries of one task in one batch *)

Lemma findQueueItem_app before rest p :
  findQueueItem (before ++ rest) p =
  match findQueueItem before p with
  | Some x => Some x
  | None => findQueueItem rest p
  end.
Proof.
  unfold findQueueItem. induction before as [|y before IH]; simpl; trivial.
  destruct (String.eqb _ _); trivial.
Qed.

(** In a batch whose entry ids are pairwise distinct, an entry that follows
    another entry of the same task is the match of no outcome. *)
Lemma shadowed_entry_never_matched before q after p x :
  NoDup (map SyncQueueItem.id (before ++ q :: after)) ->
  (exists q', In q' before /\
              SyncQueueItem.task_id q' = SyncQueueItem.task_id q) ->
  findQueueItem (before ++ q :: after) p = Some x ->
  SyncQueueItem.id x <> SyncQueueItem.id q.
Proof.
  intros Hnodup (q' & Hq' & Htask) Hfind.
  rewrite map_app in Hnodup. simpl in Hnodup.
  pose proof (NoDup_remove_2 _ _ _ Hnodup) as Hfresh.
  rewrite findQueueItem_app in Hfind.
  destruct (findQueueItem before p) as [y|] eqn:Hbefore.
  - injection Hfind as <-. unfold findQueueItem in Hbefore.
    apply find_some in Hbefore. destruct Hbefore as [Hin _].
    intros Heq. apply Hfresh. apply in_or_app. left.
    rewrite <- Heq. now apply in_map.
  - unfold findQueueItem in Hbefore, Hfind. simpl in Hfind.
    pose proof (find_none _ _ Hbefore q' Hq') as Hmiss. simpl in Hmiss.
    rewrite Htask in Hmiss. rewrite Hmiss in Hfind.
    apply find_some in Hfind. destruct Hfind as [Hin _].
    intros Heq. apply Hfresh. apply in_or_app. right.
    rewrite <- Heq. now apply in_map.
Qed.

Lemma queue_delete_keeps id d row :
  In row (sync_queue d) -> SyncQueueItem.id row <> id ->
  In row (sync_queue (delete_sync_queue id d)).
Proof.
  intros Hin Hne. simpl. apply filter_In. split; trivial.
  destruct (String.eqb_spec (SyncQueueItem.id row) id);
    [contradiction|reflexivity].
Qed.

Lemma queue_handleSyncError_keeps item message d row :
  In row (sync_queue d) ->
  SyncQueueItem.id row <> SyncQueueItem.id item ->
  In row (sync_queue (handleSyncError item message d)).
Proof.
  intros Hin Hne. unfold handleSyncError. destruct (_ >=? _).
  - now apply queue_delete_keeps.
  - simpl. apply in_map_iff. exists row. split; trivial.
    destruct (String.eqb_spec (SyncQueueItem.id row) (SyncQueueItem.id item));
      [contradiction|reflexivity].
Qed.

(** X12: in a batch whose entry ids are pairwise distinct, an entry that
    follows another entry of the same task is out of reach of the outcomes:
    whatever outcomes the reply lists, the loop over them leaves the row of
    that entry in the log as it was, neither removed nor charged a retry. *)
Theorem later_entry_of_a_task_is_left_in_the_log :
  forall (E : Env) (before after : list SyncQueueItem.t) (q : SyncQueueItem.t)
         (outcomes : list ProcessedItem.t) (s : SyncState),
    NoDup (map SyncQueueItem.id (before ++ q :: after)) ->
    (exists q', In q' before /\
                SyncQueueItem.task_id q' = SyncQueueItem.task_id q) ->
    In q (sync_queue (db s)) ->
    In q (sync_queue
            (db (snd (for_each outcomes
                        (processItem E (before ++ q :: after)) s)))).
Proof.
  intros E before after q outcomes s Hnodup Hshadow.
  apply (for_each_invariant (fun s' => In q (sync_queue (db s')))).
  intros p s0 Hin. unfold processItem.
  destruct (findQueueItem (before ++ q :: after) p) as [x|] eqn:Hfind;
    [|exact Hin].
  pose proof (shadowed_entry_never_matched _ _ _ _ Hnodup Hshadow Hfind)
    as Hne.
  assert (Hne' : SyncQueueItem.id q <> SyncQueueItem.id x) by congruence.
  destruct (ProcessedItem.status p), (ProcessedItem.resolved_data p);
    run_monad;
    try (unfold updateSyncStatus; simpl; now apply queue_delete_keeps);
    try (now apply queue_handleSyncError_keeps).
  destruct (select_task _ _); simpl; trivial.
  now apply queue_delete_keeps.
Qed.

Lemma later_entry_of_a_task_is_left_in_the_log_witness :
  In Samples.q2
     (sync_queue
        (db (snd (for_each
                    [Samples.success_keyed "t-1"; Samples.success_keyed "t-1"]
                    (processItem Samples.online [Samples.q1; Samples.q2])
                    (Samples.state_of Samples.db1))))).
Proof.
  apply (@later_entry_of_a_task_is_left_in_the_log Samples.online
           [Samples.q1] [] Samples.q2
           [Samples.success_keyed "t-1"; Samples.success_keyed "t-1"]
           (Samples.state_of Samples.db1)).
  - repeat constructor; simpl; intuition discriminate.
  - exists Samples.q1. split; [now left|reflexivity].
  - right. now left.
Defined.

(** ** What one outcome does *)

Lemma in_update_tasks set id d t' :
  In t' (tasks (update_tasks set id d)) ->
  exists t, In t (tasks d) /\
            ((Task.id t = id /\ t' = set t) \/ (Task.id t <> id /\ t' = t)).
Proof.
  simpl. intros H. apply in_map_iff in H. destruct H as (t & <- & Hin).
  exists t. split; trivial.
  destruct (String.eqb_spec (Task.id t) id); [left|right]; auto.
Qed.

(** X13: a success outcome matched to an entry removes the rows of that
    entry's id from the log and no other row, and counts one synced item;
    every task row of the entry's entity, soft-deleted or not, becomes
    [synced] with [last_synced_at] the present time, and takes the outcome's
    [server_id] when that is a non-empty string but keeps its own otherwise;
    rows of other tasks are not changed. *)
Theorem success_outcome_settles_entry :
  forall (E : Env) (batch : list SyncQueueItem.t) (p : ProcessedItem.t)
         (q : SyncQueueItem.t) (s : SyncState),
    findQueueItem batch p = Some q ->
    ProcessedItem.status p = outcome_success ->
    exists s',
      processItem E batch p s = (Normal tt, s') /\
      (forall row, In row (sync_queue (db s')) <->
         In row (sync_queue (db s)) /\
         SyncQueueItem.id row <> SyncQueueItem.id q) /\
      (forall t', In t' (tasks (db s')) ->
         exists t, In t (tasks (db s)) /\
           Task.id t' = Task.id t /\
           Task.title t' = Task.title t /\
           Task.updated_at t' = Task.updated_at t /\
           Task.is_deleted t' = Task.is_deleted t /\
           if String.eqb (Task.id t) (SyncQueueItem.task_id q) then
             Task.sync_status t' = st_synced /\
             Task.last_synced_at t' = Some (now E) /\
             Task.server_id t' =
             match or_null (ProcessedItem.server_id p) with
             | Some sid => Some sid
             | None => Task.server_id t
             end
           else t' = t) /\
      SyncResult.synced_items (result s')
      = SyncResult.synced_items (result s) + 1 /\
      SyncResult.failed_items (result s') = SyncResult.failed_items (result s) /\
      SyncResult.errors (result s') = SyncResult.errors (result s).
Proof.
  intros E batch p q s Hfind Hstatus. unfold processItem.
  rewrite Hfind, Hstatus. run_monad. eexists. split; [reflexivity|].
  simpl. split; [|split; [|repeat split]].
  - intros row. split.
    + intros H. unfold updateSyncStatus in H. simpl in H.
      apply filter_In in H. destruct H as [Hin Hne]. split; trivial.
      destruct (String.eqb_spec (SyncQueueItem.id row) (SyncQueueItem.id q));
        [discriminate|assumption].
    + intros [Hin Hne]. unfold updateSyncStatus. simpl.
      apply filter_In. split; trivial.
      destruct (String.eqb_spec (SyncQueueItem.id row) (SyncQueueItem.id q));
        [contradiction|reflexivity].
  - unfold updateSyncStatus. simpl is_synced. cbv iota.
    intros t' Hin.
    change (In t' (tasks (update_tasks
                            (set_sync_status st_synced (now E)
                               (ProcessedItem.server_id p))
                            (SyncQueueItem.task_id q) (db s)))) in Hin. apply in_update_tasks in Hin.
    destruct Hin as (t & Hin & [[Hid ->]|[Hne ->]]); exists t;
      (split; [exact Hin|]); simpl; repeat split; trivial.
    + rewrite Hid, String.eqb_refl. repeat split.
    + apply String.eqb_neq in Hne. now rewrite Hne.
Qed.

Lemma success_outcome_settles_entry_witness :
  exists s',
    processItem Samples.online [Samples.q1; Samples.q2]
      (Samples.success_keyed "t-1") (Samples.state_of Samples.db1)
    = (Normal tt, s') /\
    SyncResult.synced_items (result s') = 1.
Proof.
  destruct (@success_outcome_settles_entry Samples.online
              [Samples.q1; Samples.q2] (Samples.success_keyed "t-1")
              Samples.q1 (Samples.state_of Samples.db1) eq_refl eq_refl)
    as (s' & Hrun & _ & _ & Hsynced & _).
  exists s'. split; [exact Hrun|exact Hsynced].
Defined.

(** X14: a conflict outcome that carries the authority's version, matched to
    an entry whose local task can be read, removes the rows of the entry's
    id from the log and counts one synced item.  The winner of
    [resolveConflict] is written to the task rows that bear the winner's own
    [id]: they take its title, completion flag and [updated_at], become
    [synced] as of the present time, and their [server_id] becomes the
    outcome's, or none when the outcome has none; rows with another id, the
    local task's included when the remote version wins under a different
    id, are not changed. *)
Theorem conflict_outcome_persists_winner :
  forall (E : Env) (batch : list SyncQueueItem.t) (p : ProcessedItem.t)
         (q : SyncQueueItem.t) (localTask serverTask : Task.t) (s : SyncState),
    findQueueItem batch p = Some q ->
    ProcessedItem.status p = outcome_conflict ->
    ProcessedItem.resolved_data p = Some serverTask ->
    select_task (SyncQueueItem.task_id q) (db s) = Some localTask ->
    exists s',
      processItem E batch p s = (Normal tt, s') /\
      (forall row, In row (sync_queue (db s')) <->
         In row (sync_queue (db s)) /\
         SyncQueueItem.id row <> SyncQueueItem.id q) /\
      (forall t', In t' (tasks (db s')) ->
         exists t, In t (tasks (db s)) /\
           Task.id t' = Task.id t /\
           Task.created_at t' = Task.created_at t /\
           Task.is_deleted t' = Task.is_deleted t /\
           if String.eqb (Task.id t)
                (Task.id (resolveConflict localTask serverTask)) then
             Task.title t'
             = Task.title (resolveConflict localTask serverTask) /\
             Task.completed t'
             = Task.completed (resolveConflict localTask serverTask) /\
             Task.updated_at t'
             = Task.updated_at (resolveConflict localTask serverTask) /\
             Task.sync_status t' = st_synced /\
             Task.server_id t' = or_null (ProcessedItem.server_id p) /\
             Task.last_synced_at t' = Some (now E)
           else t' = t) /\
      SyncResult.synced_items (result s')
      = SyncResult.synced_items (result s) + 1 /\
      SyncResult.failed_items (result s') = SyncResult.failed_items (result s).
Proof.
  intros E batch p q l sv s Hfind Hstatus Hdata Hlocal. unfold processItem.
  rewrite Hfind, Hstatus, Hdata. run_monad. rewrite Hlocal. simpl.
  eexists. split; [reflexivity|]. simpl. split; [|split; [|repeat split]].
  - intros row. split.
    + intros H. apply filter_In in H. destruct H as [Hin Hne]. split; trivial.
      destruct (String.eqb_spec (SyncQueueItem.id row) (SyncQueueItem.id q));
        [discriminate|assumption].
    + intros [Hin Hne]. apply filter_In. split; trivial.
      destruct (String.eqb_spec (SyncQueueItem.id row) (SyncQueueItem.id q));
        [contradiction|reflexivity].
  - intros t' Hin.
    change (In t' (tasks (update_tasks
                            (set_resolved E (resolveConflict l sv)
                               (ProcessedItem.server_id p))
                            (Task.id (resolveConflict l sv)) (db s)))) in Hin. apply in_update_tasks in Hin.
    destruct Hin as (t & Hin & [[Hid ->]|[Hne ->]]); exists t;
      (split; [exact Hin|]); simpl; repeat split; trivial.
    + rewrite Hid, String.eqb_refl. repeat split.
    + apply String.eqb_neq in Hne. now rewrite Hne.
Qed.

Lemma conflict_outcome_persists_winner_witness :
  exists s',
    processItem Samples.online [Samples.q1]
      (Samples.conflict_keyed "t-1" (Some Samples.remote1))
      (Samples.state_of Samples.db1)
    = (Normal tt, s') /\
    SyncResult.synced_items (result s') = 1.
Proof.
  destruct (@conflict_outcome_persists_winner Samples.online [Samples.q1]
              (Samples.conflict_keyed "t-1" (Some Samples.remote1))
              Samples.q1 Samples.task1 Samples.remote1
              (Samples.state_of Samples.db1)
              eq_refl eq_refl eq_refl eq_refl)
    as (s' & Hrun & _ & _ & Hsynced & _).
  exists s'. split; [exact Hrun|exact Hsynced].
Defined.

(** ** TaskService: writes followed by reads *)

Lemma select_task_insert id row d :
  select_task id (insert_task row d) =
  match select_task id d with
  | Some t => Some t
  | None =>
      if String.eqb (Task.id row) id && negb (Task.is_deleted row)
      then Some row else None
  end.
Proof.
  unfold select_task. simpl. induction (tasks d) as [|x l IH]; simpl.
  - reflexivity.
  - destruct (String.eqb (Task.id x) id && negb (Task.is_deleted x)); trivial.
Qed.

Lemma select_task_fresh id d :
  (forall row, In row (tasks d) -> Task.id row <> id) ->
  select_task id d = None.
Proof.
  intros H. apply select_task_unreadable. intros row Hin Hid.
  now destruct (H row Hin).
Qed.

Lemma select_task_update_same set id d :
  (forall row, Task.id (set row) = Task.id row) ->
  (forall row, Task.is_deleted (set row) = Task.is_deleted row) ->
  select_task id (update_tasks set id d) = option_map set (select_task id d).
Proof.
  intros Hid Hdel. unfold select_task. simpl.
  induction (tasks d) as [|x l IH]; simpl; trivial.
  destruct (String.eqb (Task.id x) id) eqn:Hx; simpl.
  - rewrite Hid, Hx, Hdel. simpl.
    destruct (negb (Task.is_deleted x)); simpl; trivial.
  - rewrite Hx. simpl. exact IH.
Qed.

Lemma select_task_update_other set id id' d :
  id' <> id ->
  (forall row, Task.id (set row) = Task.id row) ->
  select_task id' (update_tasks set id d) = select_task id' d.
Proof.
  intros Hne Hid. unfold select_task. simpl.
  induction (tasks d) as [|x l IH]; simpl; trivial.
  destruct (String.eqb_spec (Task.id x) id) as [Hx|Hx]; simpl.
  - rewrite Hid.
    destruct (String.eqb_spec (Task.id x) id'); [congruence|]. simpl.
    exact IH.
  - destruct (String.eqb (Task.id x) id' && negb (Task.is_deleted x)); trivial.
Qed.

Lemma select_task_update_deleted at_ id d :
  select_task id (update_tasks (set_deleted at_) id d) = None.
Proof.
  apply select_task_unreadable. intros row Hin Hrow.
  apply in_update_tasks in Hin.
  destruct Hin as (t & _ & [[_ ->]|[Hne ->]]); [reflexivity|contradiction].
Qed.

Lemma getSyncQueueItems_In d row :
  In row (getSyncQueueItems d) <->
  In row (sync_queue d) /\ SyncQueueItem.retry_count row < MAX_RETRY_COUNT.
Proof.
  unfold getSyncQueueItems. split.
  - intros H. apply (Permutation_in _ (order_by_created_at_perm _)) in H.
    apply filter_In in H. now rewrite Z.ltb_lt in H.
  - intros [Hin Hlt].
    apply (Permutation_in _ (Permutation_sym (order_by_created_at_perm _))).
    apply filter_In. now rewrite Z.ltb_lt.
Qed.

Lemma select_task_id id d t : select_task id d = Some t -> Task.id t = id.
Proof.
  unfold select_task. intros H. apply find_some in H. destruct H as [_ H].
  apply andb_prop in H. destruct H as [H _]. now apply String.eqb_eq.
Qed.

(** X15: [createTask], when the identifier it draws is the id of no stored
    task, returns a task that [getTask] reads back at once: the same title
    and completion flag, the description with the empty string turned into
    none, pending and not deleted.  Reads of other ids are not affected, and
    the entry appended for the task is among those the next cycle drains. *)
Theorem createTask_then_getTask :
  forall (E : Env) (taskData : TaskData.t) (w : World),
    (forall row, In row (tasks (store w)) ->
       Task.id row <> uuid_of E (uuid_counter w)) ->
    exists task stored w',
      createTask E taskData w = (Normal task, w') /\
      Task.id task = uuid_of E (uuid_counter w) /\
      getTask (Task.id task) w' = (Normal (Some stored), w') /\
      Task.id stored = Task.id task /\
      Task.title stored = TaskData.title taskData /\
      Task.description stored = or_null (TaskData.description taskData) /\
      Task.completed stored = TaskData.completed taskData /\
      Task.sync_status stored = st_pending /\
      Task.is_deleted stored = false /\
      Task.created_at stored = now E /\
      Task.updated_at stored = now E /\
      (forall id', id' <> Task.id task ->
         select_task id' (store w') = select_task id' (store w)) /\
      exists entry,
        In entry (getSyncQueueItems (store w')) /\
        SyncQueueItem.task_id entry = Task.id task /\
        SyncQueueItem.operation entry = op_create /\
        SyncQueueItem.retry_count entry = 0.
Proof.
  intros E td w Hfresh.
  set (task := Task.mk (uuid_of E (uuid_counter w)) (TaskData.title td)
                 (TaskData.description td) (TaskData.completed td) (now E)
                 (now E) false st_pending (TaskData.server_id td)
                 (TaskData.last_synced_at td)).
  set (entry := SyncQueueItem.mk (uuid_of E (S (uuid_counter w)))
                  (Task.id task) op_create (snapshot task) (now E) 0 None).
  exists task, (task_row task),
    (mkWorld (insert_sync_queue entry (insert_task (task_row task) (store w)))
       (S (S (uuid_counter w)))).
  split; [reflexivity|]. split; [reflexivity|].
  assert (Hread : forall id',
            select_task id'
              (insert_sync_queue entry (insert_task (task_row task) (store w)))
            = match select_task id' (store w) with
              | Some t => Some t
              | None => if String.eqb (Task.id task) id' then Some (task_row task)
                        else None
              end).
  { intros id'.
    change (select_task id'
              (insert_sync_queue entry (insert_task (task_row task) (store w))))
      with (select_task id' (insert_task (task_row task) (store w))).
    rewrite select_task_insert. simpl.
    now rewrite andb_true_r. }
  split.
  { unfold getTask, gets. cbn [store]. rewrite Hread.
    rewrite (@select_task_fresh (Task.id task) (store w) Hfresh).
    now rewrite String.eqb_refl. }
  do 8 (split; [reflexivity|]). split.
  - intros id' Hne. cbn [store]. rewrite Hread.
    destruct (select_task id' (store w)); trivial.
    destruct (String.eqb_spec (Task.id task) id'); [congruence|reflexivity].
  - exists entry. split; [|repeat split].
    apply getSyncQueueItems_In. split; [|reflexivity].
    simpl. apply in_or_app. right. left. reflexivity.
Qed.

Lemma createTask_then_getTask_witness :
  exists task stored w',
    createTask Samples.online (TaskData.mk "buy milk" (Some "") false None None)
      (mkWorld Samples.db1 0) = (Normal task, w') /\
    getTask (Task.id task) w' = (Normal (Some stored), w') /\
    Task.description stored = None.
Proof.
  destruct (@createTask_then_getTask Samples.online
              (TaskData.mk "buy milk" (Some "") false None None)
              (mkWorld Samples.db1 0))
    as (task & stored & w' & Hrun & _ & Hget & _ & _ & Hdesc & _).
  - intros row [<-|[]]. simpl. discriminate.
  - exists task, stored, w'. repeat split; assumption.
Defined.

(** X16: [deleteTask] on a readable task is a soft delete: it returns true,
    keeps every task row but flags those of the id as deleted and pending as
    of the present time, and appends one [delete] entry with retry count 0.
    From then on [getTask] finds nothing under the id, so a second
    [deleteTask] returns false and an [updateTask] returns nothing, both
    without changing the store; tasks of other ids read as before. *)
Theorem deleteTask_is_a_soft_delete :
  forall (E : Env) (id : string) (w : World) (t : Task.t),
    select_task id (store w) = Some t ->
    exists w',
      deleteTask E id w = (Normal true, w') /\
      getTask id w' = (Normal None, w') /\
      deleteTask E id w' = (Normal false, w') /\
      (forall updates, updateTask E id updates w' = (Normal None, w')) /\
      map Task.id (tasks (store w')) = map Task.id (tasks (store w)) /\
      (forall row, In row (tasks (store w')) -> Task.id row = id ->
         Task.is_deleted row = true /\ Task.sync_status row = st_pending /\
         Task.updated_at row = now E) /\
      (forall id', id' <> id ->
         select_task id' (store w') = select_task id' (store w)) /\
      sync_queue (store w')
      = sync_queue (store w)
        ++ [SyncQueueItem.mk (uuid_of E (uuid_counter w)) id op_delete
              (id_only id) (now E) 0 None].
Proof.
  intros E id w t Hsel.
  set (entry := SyncQueueItem.mk (uuid_of E (uuid_counter w)) id op_delete
                  (id_only id) (now E) 0 None).
  set (d' := insert_sync_queue entry
               (update_tasks (set_deleted (now E)) id (store w))).
  assert (Hgone : select_task id d' = None).
  { exact (select_task_update_deleted (now E) id (store w)). }
  exists (mkWorld d' (S (uuid_counter w))).
  split. { run_route. now rewrite Hsel. }
  split. { unfold getTask, gets. cbn [store]. now rewrite Hgone. }
  split. { run_route. now rewrite Hgone. }
  split. { intros updates. run_route. now rewrite Hgone. }
  cbn [store]. split; [|split; [|split; [|reflexivity]]].
  - apply (tasks_update_tasks_key Task.id (set_deleted (now E))). reflexivity.
  - intros row Hin Hid. apply in_update_tasks in Hin.
    destruct Hin as (row0 & _ & [[_ ->]|[Hne ->]]);
      [repeat split|contradiction].
  - intros id' Hne.
    exact (@select_task_update_other (set_deleted (now E)) id id' (store w) Hne
             (fun row => eq_refl)).
Qed.

Lemma deleteTask_is_a_soft_delete_witness :
  exists w',
    deleteTask Samples.online "t-1" (mkWorld Samples.db1 0)
    = (Normal true, w') /\
    getTask "t-1" w' = (Normal None, w').
Proof.
  destruct (@deleteTask_is_a_soft_delete Samples.online "t-1"
              (mkWorld Samples.db1 0) Samples.task1 eq_refl)
    as (w' & Hrun & Hget & _).
  exists w'. split; assumption.
Defined.

(** X17: [updateTask] on a readable task returns the merged task: the id and
    [created_at] of the stored one, each of title, description and
    completion flag taken from the updates when given and from the stored
    task otherwise, pending, updated at the present time.  [getTask] then
    reads those values back (an empty description as none), other tasks
    read as before, and one [update] entry with retry count 0 is
    appended. *)
Theorem updateTask_then_getTask :
  forall (E : Env) (id : string) (updates : TaskUpdates.t) (w : World)
         (existing : Task.t),
    select_task id (store w) = Some existing ->
    exists updated stored w',
      updateTask E id updates w = (Normal (Some updated), w') /\
      getTask id w' = (Normal (Some stored), w') /\
      Task.id updated = id /\ Task.id stored = id /\
      Task.title updated
      = match TaskUpdates.title updates with
        | Some s => s
        | None => Task.title existing
        end /\
      Task.completed updated
      = match TaskUpdates.completed updates with
        | Some b => b
        | None => Task.completed existing
        end /\
      Task.description updated
      = match TaskUpdates.description updates with
        | Some o => o
        | None => Task.description existing
        end /\
      Task.title stored = Task.title updated /\
      Task.completed stored = Task.completed updated /\
      Task.description stored = or_null (Task.description updated) /\
      Task.created_at stored = Task.created_at existing /\
      Task.updated_at stored = now E /\
      Task.sync_status stored = st_pending /\
      (forall id', id' <> id ->
         select_task id' (store w') = select_task id' (store w)) /\
      sync_queue (store w')
      = sync_queue (store w)
        ++ [SyncQueueItem.mk (uuid_of E (uuid_counter w)) id op_update
              (snapshot updated) (now E) 0 None].
Proof.
  intros E id updates w existing Hsel.
  pose proof (select_task_id _ _ Hsel) as Hid.
  set (updated := merge_updates E existing updates).
  set (entry := SyncQueueItem.mk (uuid_of E (uuid_counter w)) (Task.id updated)
                  op_update (snapshot updated) (Task.updated_at updated)
                  0 None).
  set (d' := insert_sync_queue entry
               (update_tasks (set_updated updated) id (store w))).
  assert (Hread : select_task id d' = Some (set_updated updated existing)).
  { change (select_task id d')
      with (select_task id (update_tasks (set_updated updated) id (store w))).
    rewrite select_task_update_same by reflexivity. now rewrite Hsel. }
  exists updated, (set_updated updated existing),
    (mkWorld d' (S (uuid_counter w))).
  split. { run_route. now rewrite Hsel. }
  split. { unfold getTask, gets. cbn [store]. now rewrite Hread. }
  split; [exact Hid|]. split; [simpl; now apply select_task_id in Hsel|].
  do 9 (split; [reflexivity|]). split.
  - intros id' Hne. cbn [store].
    exact (@select_task_update_other (set_updated updated) id id' (store w) Hne
             (fun row => eq_refl)).
  - cbn [store]. subst d' entry. simpl. now rewrite Hid.
Qed.

Lemma updateTask_then_getTask_witness :
  exists updated stored w',
    updateTask Samples.online "t-1"
      (TaskUpdates.mk (Some "write the report") None (Some true))
      (mkWorld Samples.db1 0) = (Normal (Some updated), w') /\
    getTask "t-1" w' = (Normal (Some stored), w') /\
    Task.title stored = Task.title updated.
Proof.
  destruct (@updateTask_then_getTask Samples.online "t-1"
              (TaskUpdates.mk (Some "write the report") None (Some true))
              (mkWorld Samples.db1 0) Samples.task1 eq_refl)
    as (updated & stored & w' & Hrun & Hget & _ & _ & _ & _ & _ & Htitle & _).
  exists updated, stored, w'. repeat split; assumption.
Defined.

(** ** TaskService: the listing queries *)

Lemma insert_desc_perm key x l : Permutation (insert_desc key x l) (x :: l).
Proof.
  induction l as [|y l IH]; simpl; [reflexivity|].
  destruct (key y <=? key x); [reflexivity|].
  rewrite IH. apply perm_swap.
Qed.

Lemma order_by_desc_perm key l : Permutation (order_by_desc key l) l.
Proof.
  induction l as [|x l IH]; simpl; [constructor|].
  rewrite insert_desc_perm. now constructor.
Qed.




(** ** The task routes: answers and rejections *)

(** X20: every write route answers, and a request it does not answer with
    its success status changes neither the store nor the identifier supply.
    [POST] answers 400 exactly when the title is missing, is not a string or
    trims to nothing, and otherwise 201, or 500 when the description has no
    [trim]; [PUT] answers 400 exactly when the title or the completion flag
    is invalid; [DELETE] answers 204 when the task can be read and 404
    otherwise. *)
Theorem write_routes_reject_without_effect :
  forall E : Env,
    (forall body w,
       exists resp w',
         post_task E body w = (Normal resp, w') /\
         In (status_code resp) [201; 400; 500] /\
         (status_code resp = 400 <->
          title_missing E (body_title body) = true) /\
         (status_code resp <> 201 -> w' = w)) /\
    (forall id body w,
       exists resp w',
         put_task E id body w = (Normal resp, w') /\
         In (status_code resp) [200; 400; 404; 500] /\
         (status_code resp = 400 <->
          title_invalid E (body_title body) = true \/
          completed_invalid (body_completed body) = true) /\
         (status_code resp = 200 -> select_task id (store w) <> None) /\
         (status_code resp <> 200 -> w' = w)) /\
    (forall id w,
       exists resp w',
         delete_task E id w = (Normal resp, w') /\
         (status_code resp = 204 <-> select_task id (store w) <> None) /\
         (status_code resp = 404 <-> select_task id (store w) = None) /\
         (status_code resp <> 204 -> w' = w)).
Proof.
  intros E. split; [|split].
  - intros body w. run_route.
    destruct (title_missing E (body_title body)) eqn:Htitle; simpl.
    + do 2 eexists. split; [reflexivity|]. simpl. intuition.
    + destruct (body_description body); simpl;
        do 2 eexists; (split; [reflexivity|]); simpl;
        intuition discriminate.
  - intros id body w. run_route.
    destruct (title_invalid E (body_title body)) eqn:Htitle; simpl.
    { do 2 eexists. split; [reflexivity|]. simpl. intuition discriminate. }
    destruct (completed_invalid (body_completed body)) eqn:Hcompleted; simpl.
    { do 2 eexists. split; [reflexivity|]. simpl. intuition discriminate. }
    destruct (body_description body); simpl;
      try (do 2 eexists; (split; [reflexivity|]); simpl;
           intuition discriminate);
      destruct (select_task id (store w)) eqn:Hsel; simpl;
      do 2 eexists; (split; [reflexivity|]); simpl;
      intuition discriminate.
  - intros id w. run_route.
    destruct (select_task id (store w)) eqn:Hsel; simpl.
    + rewrite Hsel. simpl. do 2 eexists. split; [reflexivity|]. simpl.
      intuition discriminate.
    + do 2 eexists. split; [reflexivity|]. simpl. intuition discriminate.
Qed.

(** X21: after a [DELETE] of a readable task has answered 204, [GET /:id]
    answers 404 for that id and [GET /] answers 200 with a list that holds
    no task of that id; neither read changes anything. *)
Theorem delete_route_hides_task :
  forall (E : Env) (id : string) (w : World) (t : Task.t),
    select_task id (store w) = Some t ->
    exists w' listed,
      delete_task E id w = (Normal (mkResponse 204 None), w') /\
      get_task id w' = (Normal (mkResponse 404 None), w') /\
      get_tasks w' = (Normal (200, listed), w') /\
      forall t', In t' listed -> Task.id t' <> id.
Proof.
  intros E id w t Hsel.
  set (d1 := insert_sync_queue
               (SyncQueueItem.mk (uuid_of E (uuid_counter w)) id op_delete
                  (id_only id) (now E) 0 None)
               (update_tasks (set_deleted (now E)) id (store w))).
  set (d2 := insert_sync_queue
               (SyncQueueItem.mk (uuid_of E (S (uuid_counter w))) id op_delete
                  (snapshot t) (now E) 0 None) d1).
  assert (Hgone : select_task id d2 = None).
  { exact (select_task_update_deleted (now E) id (store w)). }
  exists (mkWorld d2 (S (S (uuid_counter w)))), (getAllTasks d2).
  split. { run_route. rewrite Hsel. simpl. now rewrite Hsel. }
  split. { unfold get_task. run_route. now rewrite Hgone. }
  split; [reflexivity|].
  intros t' Hin Hid. unfold getAllTasks in Hin.
  apply (Permutation_in _ (order_by_desc_perm _ _)) in Hin.
  apply filter_In in Hin. destruct Hin as [Hin Hlive].
  change (tasks d2)
    with (tasks (update_tasks (set_deleted (now E)) id (store w))) in Hin.
  apply in_update_tasks in Hin.
  destruct Hin as (t0 & _ & [[_ ->]|[Hne ->]]);
    [discriminate Hlive|contradiction].
Qed.

Lemma delete_route_hides_task_witness :
  exists w' listed,
    delete_task Samples.online "t-1" (mkWorld Samples.db1 0)
    = (Normal (mkResponse 204 None), w') /\
    get_task "t-1" w' = (Normal (mkResponse 404 None), w') /\
    get_tasks w' = (Normal (200, listed), w').
Proof.
  destruct (@delete_route_hides_task Samples.online "t-1"
              (mkWorld Samples.db1 0) Samples.task1 eq_refl)
    as (w' & listed & Hrun & Hget & Hall & _).
  exists w', listed. repeat split; assumption.
Defined.

(** ** Cycles in which every exchange fails *)


















(** ** Replies without outcomes *)

(** X24: a reply whose body has no [processed_items] is handled like a
    failed exchange: the batch counts as posted, and every entry of it goes
    through the failure handler with one message, adding one failed item and
    one error record each; nothing is thrown. *)
Theorem malformed_reply_fails_the_batch :
  forall (E : Env) (batch : list SyncQueueItem.t) (s : SyncState),
    post_batch E (List.length (requests s)) batch = axios_ok None ->
    exists message s',
      syncBatch E batch s = (Normal tt, s') /\
      db s' = fold_left (fun d item => handleSyncError item message d)
                batch (db s) /\
      requests s' = requests s ++ [batch] /\
      SyncResult.synced_items (result s')
      = SyncResult.synced_items (result s) /\
      SyncResult.failed_items (result s')
      = SyncResult.failed_items (result s) + Z.of_nat (List.length batch) /\
      SyncResult.errors (result s')
      = SyncResult.errors (result s)
        ++ map (fun item =>
                  SyncError.mk (SyncQueueItem.task_id item)
                    (SyncQueueItem.operation item) message (now E))
               batch.
Proof.
  intros E batch s Hreply.
  exists "Cannot read properties of undefined (reading 'map')".
  eexists. split.
  - unfold syncBatch, processBatch, processed_items_of. run_monad.
    rewrite Hreply. simpl. apply failBatch_spec.
  - repeat split.
Qed.

Lemma malformed_reply_fails_the_batch_witness :
  exists message s',
    syncBatch
      (mkEnv 1000 Samples.uuid_unary (fun s => s) true
         (fun _ _ => axios_ok None) None)
      [Samples.q1; Samples.q2] (Samples.state_of Samples.db1)
    = (Normal tt, s') /\
    db s' = fold_left (fun d item => handleSyncError item message d)
              [Samples.q1; Samples.q2] Samples.db1 /\
    SyncResult.failed_items (result s') = 2.
Proof.
  destruct (@malformed_reply_fails_the_batch
              (mkEnv 1000 Samples.uuid_unary (fun s => s) true
                 (fun _ _ => axios_ok None) None)
              [Samples.q1; Samples.q2] (Samples.state_of Samples.db1) eq_refl)
    as (message & s' & Hrun & Hdb & _ & _ & Hfailed & _).
  exists message, s'. repeat split; assumption.
Defined.

(** ** Appending and reporting *)

Lemma count_pending_insert row d :
  SyncQueueItem.retry_count row = 0 ->
  count_pending (insert_sync_queue row d) = count_pending d + 1.
Proof.
  intros Hzero. unfold count_pending. simpl.
  rewrite filter_app, length_app. simpl. rewrite Hzero. simpl. lia.
Qed.

(** X25: [addToSyncQueue] appends one entry with retry count 0 and touches no
    task row; the entry is among those the next cycle drains, and the status
    report counts one more pending entry and one more entry in all. *)
Theorem addToSyncQueue_entry_is_pending :
  forall (E : Env) (taskId : string) (operation : Operation) (data : Task.t)
         (w : World),
    exists entry w',
      addToSyncQueue E taskId operation data w = (Normal tt, w') /\
      sync_queue (store w') = sync_queue (store w) ++ [entry] /\
      tasks (store w') = tasks (store w) /\
      SyncQueueItem.id entry = uuid_of E (uuid_counter w) /\
      SyncQueueItem.task_id entry = taskId /\
      SyncQueueItem.operation entry = operation /\
      SyncQueueItem.retry_count entry = 0 /\
      In entry (getSyncQueueItems (store w')) /\
      pending_sync_count (get_status E (store w'))
      = pending_sync_count (get_status E (store w)) + 1 /\
      sync_queue_size (get_status E (store w'))
      = sync_queue_size (get_status E (store w)) + 1.
Proof.
  intros E taskId operation data w. run_route.
  do 2 eexists. split; [reflexivity|]. simpl.
  do 6 (split; [reflexivity|]). split; [|split].
  - apply getSyncQueueItems_In. split; [|reflexivity].
    simpl. apply in_or_app. right. now left.
  - now apply count_pending_insert.
  - rewrite length_app. simpl. lia.
Qed.


